(** * Bank lending ledger

    A shallow embedding of the ledger engine of [backend/server.js], in its
    two variants: the SQLite one (callbacks on a single connection) and the
    PostgreSQL one (async/await over [db.query]).  The four request handlers
    are functions from a database state to a new state and a response.

    - JavaScript numbers are IEEE 754 binary64 values: the kernel's [float].
    - The numeric fields of a request body are numbers (or absent); module
      [Untyped] takes up bodies whose fields are strings of digits.
    - The relational store is three lists of rows, in insertion order.
    - A request runs to completion before the next one starts; whether a
      statement sent to the store fails is an input of the run ([fault]), as
      are the identifier returned by [uuidv4()] and the store's clock. *)

From Stdlib Require Import Floats ZArith List String Bool Lia.
From Stdlib Require Uint63.
From Stdlib Require Import Permutation Sorted DecimalString.
Import ListNotations.

Local Open Scope string_scope.

(** ** JavaScript values and library functions *)

(** A JavaScript number. *)
Definition number : Type := float.

Module JS.

(** A field of a parsed JSON body that may be absent ([undefined]). *)
Definition num (x : option number) : number :=
  match x with Some v => v | None => nan end.

Definition str (x : option string) : string :=
  match x with Some s => s | None => "undefined" end.

(** [!x]: a number is falsy when it is [+0], [-0] or [NaN]; a string when
    it is empty; [undefined] always. *)
Definition not_num (x : option number) : bool :=
  match x with
  | None => true
  | Some v => is_zero v || is_nan v
  end.

Definition not_str (x : option string) : bool :=
  match x with
  | None => true
  | Some s => String.eqb s EmptyString
  end.

(** [x <= y], [x < y] and [x > y] with [undefined] converted to [NaN]. *)
Definition le (x : option number) (y : number) : bool := (num x <=? y)%float.
Definition lt (x : option number) (y : number) : bool := (num x <? y)%float.
Definition gt (x y : number) : bool := (y <? x)%float.

(** [Math.ceil]: the least integral value not below [x]; [NaN], the
    infinities and values of exponent at least 0 are returned as they are,
    and a negative value above -1 gives [-0]. *)
Definition Math_ceil (x : number) : number :=
  match Prim2SF x with
  | S754_finite s m e =>
      if (0 <=? e)%Z then x
      else
        let d := Z.pow 2 (- e) in
        if s then
          let q := (Z.pos m / d)%Z in
          if (q =? 0)%Z then neg_zero else (- of_uint63 (Uint63.of_Z q))%float
        else of_uint63 (Uint63.of_Z (- ((- Z.pos m) / d)))
  | _ => x
  end.

(** [Math.max(a, b)]: [NaN] when either is; [+0] counts above [-0]. *)
Definition Math_max (a b : number) : number :=
  if is_nan a || is_nan b then nan
  else if (a <? b)%float then b
  else if (b <? a)%float then a
  else if is_zero a && get_sign a then b
  else a.

(** [parseFloat] applied to a numeric column as the PostgreSQL driver
    returns it: the decimal text of the stored number, read back. *)
Definition parseFloat (x : number) : number := x.

End JS.

(** ** The relational store (backend/database.js) *)

Inductive loan_status : Type :=
| ACTIVE
| PAID_OFF.

Definition status_text (s : loan_status) : string :=
  match s with
  | ACTIVE => "ACTIVE"
  | PAID_OFF => "PAID_OFF"
  end.

Record customer_row : Type := mkCustomer {
  cust_customer_id : string;
  cust_name : string;
  cust_created_at : Z
}.

Record loan_row : Type := mkLoan {
  loan_id : string;
  customer_id : string;
  principal_amount : number;
  total_amount : number;
  interest_rate : number;
  loan_period_years : number;
  monthly_emi : number;
  status : loan_status;
  created_at : Z
}.

Record payment_row : Type := mkPayment {
  payment_id : string;
  pay_loan_id : string;
  amount : number;
  payment_type : string;
  payment_date : Z
}.

Record database : Type := mkDb {
  Customers : list customer_row;
  Loans : list loan_row;
  Payments : list payment_row
}.

Definition empty_db : database := mkDb [] [] [].

(** The statements the handlers send to the store. *)
Inductive site : Type :=
| SelectCustomer
| InsertCustomer
| InsertLoan
| Begin
| SelectLoan
| SelectPayments
| InsertPayment
| UpdateLoan
| Commit
| SelectTransactions
| SelectCustomerLoans
| SelectLoanPayments (loan : string).

(** What a run takes from outside: the identifier [uuidv4()] returns, the
    store's clock, and for each statement the error the driver reports, if
    any. *)
Record env : Type := mkEnv {
  uuid : string;
  now : Z;
  fault : site -> option string
}.

Definition no_fault : site -> option string := fun _ => None.

Inductive result (A : Type) : Type :=
| Done (a : A)
| Err (message : string).

Arguments Done {A} a.
Arguments Err {A} message.

(** *** Queries *)

Definition find_customer (id : string) (db : database) : option customer_row :=
  find (fun c => String.eqb (cust_customer_id c) id) (Customers db).

(** [SELECT * FROM Loans WHERE loan_id = ?], first row. *)
Definition find_loan (id : string) (db : database) : option loan_row :=
  find (fun l => String.eqb (loan_id l) id) (Loans db).

(** [SELECT amount FROM Payments WHERE loan_id = ?]. *)
Definition payments_of (id : string) (db : database) : list payment_row :=
  filter (fun p => String.eqb (pay_loan_id p) id) (Payments db).

(** [SELECT * FROM Loans WHERE customer_id = ?]. *)
Definition loans_of (cid : string) (db : database) : list loan_row :=
  filter (fun l => String.eqb (customer_id l) cid) (Loans db).

(** [ORDER BY payment_date ASC]: rows of equal date keep their insertion
    order. *)
Fixpoint insert_by_date (p : payment_row) (l : list payment_row) : list payment_row :=
  match l with
  | [] => [p]
  | q :: r =>
      if (payment_date p <? payment_date q)%Z then p :: q :: r
      else q :: insert_by_date p r
  end.

Definition order_by_date (l : list payment_row) : list payment_row :=
  fold_left (fun acc p => insert_by_date p acc) l [].

(** *** Updates; a PRIMARY KEY rejects a second row of the same key *)

Definition key_taken : string := "UNIQUE constraint failed".

Definition insert_customer (e : env) (row : customer_row) (db : database)
  : result database :=
  match fault e InsertCustomer with
  | Some m => Err m
  | None =>
      if existsb (fun c => String.eqb (cust_customer_id c) (cust_customer_id row))
           (Customers db)
      then Err key_taken
      else Done (mkDb (Customers db ++ [row]) (Loans db) (Payments db))
  end.

Definition insert_loan (e : env) (row : loan_row) (db : database)
  : result database :=
  match fault e InsertLoan with
  | Some m => Err m
  | None =>
      if existsb (fun l => String.eqb (loan_id l) (loan_id row)) (Loans db)
      then Err key_taken
      else Done (mkDb (Customers db) (Loans db ++ [row]) (Payments db))
  end.

Definition insert_payment (e : env) (row : payment_row) (db : database)
  : result database :=
  match fault e InsertPayment with
  | Some m => Err m
  | None =>
      if existsb (fun p => String.eqb (payment_id p) (payment_id row)) (Payments db)
      then Err key_taken
      else Done (mkDb (Customers db) (Loans db) (Payments db ++ [row]))
  end.

Definition set_status (s : loan_status) (l : loan_row) : loan_row :=
  mkLoan (loan_id l) (customer_id l) (principal_amount l) (total_amount l)
    (interest_rate l) (loan_period_years l) (monthly_emi l) s (created_at l).

(** [UPDATE Loans SET status = ? WHERE loan_id = ?]. *)
Definition update_status (e : env) (s : loan_status) (id : string) (db : database)
  : result database :=
  match fault e UpdateLoan with
  | Some m => Err m
  | None =>
      Done (mkDb (Customers db)
              (map (fun l => if String.eqb (loan_id l) id then set_status s l else l)
                 (Loans db))
              (Payments db))
  end.

(** *** Transactions on the connection *)

Record session : Type := mkSession {
  cur : database;
  saved : option database
}.

Definition idle (db : database) : session := mkSession db None.

Definition exec_begin (s : session) : session :=
  match saved s with
  | None => mkSession (cur s) (Some (cur s))
  | Some _ => s
  end.

Definition exec_commit (s : session) : session := mkSession (cur s) None.

Definition exec_rollback (s : session) : session :=
  match saved s with
  | Some d => mkSession d None
  | None => s
  end.

Definition on_cur (f : database -> result database) (s : session) : result session :=
  match f (cur s) with
  | Done d => Done (mkSession d (saved s))
  | Err m => Err m
  end.

(** ** Requests and responses *)

Record loan_request : Type := mkLoanRequest {
  req_customer_id : option string;
  req_loan_amount : option number;
  req_loan_period_years : option number;
  req_interest_rate_yearly : option number
}.

Record payment_request : Type := mkPaymentRequest {
  req_amount : option number;
  req_payment_type : option string
}.

(** [res.status(code).json(body)]; a failure body is [{message, error?}]. *)
Inductive response (A : Type) : Type :=
| Success (code : nat) (body : A)
| Failure (code : nat) (message : string) (error : option string).

Arguments Success {A} code body.
Arguments Failure {A} code message error.

Definition is_failure {A : Type} (r : response A) : bool :=
  match r with
  | Success _ _ => false
  | Failure _ _ _ => true
  end.

Record loan_details : Type := mkDetails {
  totalAmount : number;
  monthlyEmi : number;
  interest : number
}.

Record loan_created : Type := mkLoanCreated {
  lc_loan_id : string;
  lc_customer_id : string;
  total_amount_payable : number;
  lc_monthly_emi : number;
  total_interest : number
}.

Record payment_recorded : Type := mkPaymentRecorded {
  pr_payment_id : string;
  pr_loan_id : string;
  pr_message : string;
  remaining_balance : number;
  pr_emis_left : number
}.

Record transaction : Type := mkTransaction {
  transaction_id : string;
  tx_date : Z;
  tx_amount : number;
  tx_type : string
}.

Record ledger : Type := mkLedger {
  lg_loan_id : string;
  lg_customer_id : string;
  lg_principal : number;
  lg_total_amount : number;
  lg_monthly_emi : number;
  amount_paid : number;
  balance_amount : number;
  lg_emis_left : number;
  lg_status : loan_status;
  transactions : list transaction
}.

Record overview_loan : Type := mkOverviewLoan {
  ov_loan_id : string;
  ov_principal : number;
  ov_total_amount : number;
  ov_total_interest : number;
  emi_amount : number;
  ov_amount_paid : number;
  ov_emis_left : number;
  ov_status : loan_status
}.

Record overview : Type := mkOverview {
  ov_customer_id : string;
  total_loans : nat;
  loans : list overview_loan
}.

(** The error classes of the interface, as the handlers spell them. *)
Definition MissingLoanParameters {A} : response A :=
  Failure 400 "Missing required loan parameters." None.
Definition InvalidLoanParameters {A} : response A :=
  Failure 400 "Invalid input for loan parameters." None.
Definition MissingPaymentParameters {A} : response A :=
  Failure 400 "Missing or invalid payment parameters." None.
Definition NonPositivePayment {A} : response A :=
  Failure 400 "Payment amount must be positive." None.
Definition LoanNotFound {A} : response A :=
  Failure 404 "Loan not found." None.
Definition AlreadyPaidOff {A} : response A :=
  Failure 400 "Loan is already paid off." None.
Definition NoLoansFound {A} : response A :=
  Failure 404 "Customer or loans for this customer not found." None.

(** ** Calculations shared by both variants *)

Local Open Scope float_scope.

Definition calculateLoanDetails (principal years rate : number) : loan_details :=
  let interest := principal * years * (rate / 100) in
  let totalAmount := principal + interest in
  let monthlyEmi := totalAmount / (years * 12) in
  mkDetails totalAmount monthlyEmi interest.

(** The sum of the amounts of payment rows, in the order of the rows. *)
Definition sum_amounts (rows : list payment_row) : number :=
  fold_left (fun sum p => sum + amount p) rows 0.

(** The total recomputed from the stored principal, period and rate. *)
Definition originalTotalAmount (loan : loan_row) : number :=
  principal_amount loan
  + principal_amount loan * loan_period_years loan * (interest_rate loan / 100).

(** Validation of the two POST bodies. *)
Definition missing_loan_parameters (req : loan_request) : bool :=
  JS.not_str (req_customer_id req) || JS.not_num (req_loan_amount req)
  || JS.not_num (req_loan_period_years req)
  || JS.not_num (req_interest_rate_yearly req).

Definition invalid_loan_parameters (req : loan_request) : bool :=
  JS.le (req_loan_amount req) 0 || JS.le (req_loan_period_years req) 0
  || JS.lt (req_interest_rate_yearly req) 0.

Definition known_type (t : string) : bool :=
  String.eqb t "EMI" || String.eqb t "LUMP_SUM".

Definition missing_payment_parameters (req : payment_request) : bool :=
  JS.not_num (req_amount req) || JS.not_str (req_payment_type req)
  || negb (known_type (JS.str (req_payment_type req))).

(** [loan.loan_id], for the handlers whose parameter [loan_id] hides the
    projection. *)
Definition loan_id_of (loan : loan_row) : string := loan_id loan.

Definition as_transaction (p : payment_row) : transaction :=
  mkTransaction (payment_id p) (payment_date p) (amount p) (payment_type p).

Definition sum_transactions (rows : list transaction) : number :=
  fold_left (fun sum t => sum + tx_amount t) rows 0.

(** ** The SQLite variant (src/backend/server.js) *)

Module Sqlite.

(** [app.post('/api/v1/loans')]. *)
Definition create_loan (req : loan_request) (e : env) (db : database)
  : database * response loan_created :=
  if missing_loan_parameters req then (db, MissingLoanParameters)
  else if invalid_loan_parameters req then (db, InvalidLoanParameters)
  else
    let customer_id := JS.str (req_customer_id req) in
    let loan_amount := JS.num (req_loan_amount req) in
    let loan_period_years := JS.num (req_loan_period_years req) in
    let interest_rate_yearly := JS.num (req_interest_rate_yearly req) in
    match fault e SelectCustomer with
    | Some err => (db, Failure 500 "Database error." (Some err))
    | None =>
        let db1 :=
          match find_customer customer_id db with
          | Some _ => db
          | None =>
              let name := ("Customer " ++ customer_id)%string in
              match insert_customer e (mkCustomer customer_id name (now e)) db with
              | Done d => d
              | Err _ => db (* logged; the loan is created all the same *)
              end
          end in
        let loan_id := uuid e in
        let d := calculateLoanDetails loan_amount loan_period_years interest_rate_yearly in
        let row := mkLoan loan_id customer_id loan_amount (totalAmount d)
                     interest_rate_yearly loan_period_years (monthlyEmi d)
                     ACTIVE (now e) in
        match insert_loan e row db1 with
        | Err err => (db1, Failure 500 "Error creating loan." (Some err))
        | Done db2 =>
            (db2, Success 201
                    (mkLoanCreated loan_id customer_id (totalAmount d)
                       (monthlyEmi d) (interest d)))
        end
    end.

(** [app.post('/api/v1/loans/:loan_id/payments')]. *)
Definition record_payment (loan_id : string) (req : payment_request)
  (e : env) (db : database) : database * response payment_recorded :=
  if missing_payment_parameters req then (db, MissingPaymentParameters)
  else if JS.le (req_amount req) 0 then (db, NonPositivePayment)
  else
    let amount := JS.num (req_amount req) in
    let payment_type := JS.str (req_payment_type req) in
    match fault e SelectLoan with
    | Some err => (db, Failure 500 "Database error." (Some err))
    | None =>
        match find_loan loan_id db with
        | None => (db, LoanNotFound)
        | Some loan =>
            match status loan with
            | PAID_OFF => (db, AlreadyPaidOff)
            | ACTIVE =>
                let newPaymentId := uuid e in
                let originalTotalAmount :=
                  principal_amount loan
                  + (principal_amount loan * loan_period_years loan
                     * (interest_rate loan / 100)) in
                match fault e SelectPayments with
                | Some err =>
                    (db, Failure 500 "Error fetching previous payments." (Some err))
                | None =>
                    let amountPaidTillDate := sum_amounts (payments_of loan_id db) in
                    let balance := originalTotalAmount - amountPaidTillDate - amount in
                    let paid := balance <=? 0 in
                    let remainingBalance := if paid then 0 else balance in
                    let newStatus := if paid then PAID_OFF else status loan in
                    let emisLeft :=
                      if String.eqb payment_type "LUMP_SUM"
                         && JS.gt (monthly_emi loan) 0
                      then JS.Math_ceil (remainingBalance / monthly_emi loan)
                      else if JS.gt (monthly_emi loan) 0
                      then JS.Math_ceil (remainingBalance / monthly_emi loan)
                      else 0 in
                    let s1 := exec_begin (idle db) in
                    let row := mkPayment newPaymentId loan_id amount payment_type
                                 (now e) in
                    match on_cur (insert_payment e row) s1 with
                    | Err err =>
                        (cur (exec_rollback s1),
                         Failure 500 "Error recording payment." (Some err))
                    | Done s2 =>
                        match on_cur (update_status e newStatus loan_id) s2 with
                        | Err err =>
                            (cur (exec_rollback s2),
                             Failure 500 "Error updating loan status." (Some err))
                        | Done s3 =>
                            (cur (exec_commit s3),
                             Success 200
                               (mkPaymentRecorded newPaymentId loan_id
                                  ("Payment recorded successfully. Loan status: "
                                   ++ status_text newStatus)%string
                                  remainingBalance emisLeft))
                        end
                    end
                end
            end
        end
    end.

(** [app.get('/api/v1/loans/:loan_id/ledger')]. *)
Definition get_ledger (loan_id : string) (e : env) (db : database)
  : database * response ledger :=
  match fault e SelectLoan with
  | Some err => (db, Failure 500 "Database error." (Some err))
  | None =>
      match find_loan loan_id db with
      | None => (db, LoanNotFound)
      | Some loan =>
          match fault e SelectTransactions with
          | Some err => (db, Failure 500 "Error fetching transactions." (Some err))
          | None =>
              let transactions :=
                map as_transaction (order_by_date (payments_of loan_id db)) in
              let totalInterestCalculated :=
                principal_amount loan * loan_period_years loan
                * (interest_rate loan / 100) in
              let originalTotalAmount :=
                principal_amount loan + totalInterestCalculated in
              let amountPaid := sum_transactions transactions in
              let balanceAmount := originalTotalAmount - amountPaid in
              let emisLeft :=
                if JS.gt (monthly_emi loan) 0
                then JS.Math_ceil (JS.Math_max 0 balanceAmount / monthly_emi loan)
                else 0 in
              (db, Success 200
                     (mkLedger (loan_id_of loan) (customer_id loan)
                        (principal_amount loan) originalTotalAmount
                        (monthly_emi loan) amountPaid balanceAmount emisLeft
                        (status loan) transactions))
          end
      end
  end.

(** One loan of the overview: [loans.map(loan => new Promise(...))]. *)
Definition overview_entry (loan : loan_row) (db : database) : overview_loan :=
  let amountPaid := sum_amounts (payments_of (loan_id loan) db) in
  let totalInterest :=
    principal_amount loan * loan_period_years loan * (interest_rate loan / 100) in
  let totalAmountPayable := principal_amount loan + totalInterest in
  let balanceAmount := totalAmountPayable - amountPaid in
  let emisLeft :=
    if JS.gt (monthly_emi loan) 0
    then JS.Math_ceil (JS.Math_max 0 balanceAmount / monthly_emi loan)
    else 0 in
  mkOverviewLoan (loan_id loan) (principal_amount loan) totalAmountPayable
    totalInterest (monthly_emi loan) amountPaid emisLeft (status loan).

(** [Promise.all]: the entries in the order of the loans, or the first
    rejection. *)
Fixpoint overview_entries (e : env) (db : database) (loans : list loan_row)
  : result (list overview_loan) :=
  match loans with
  | [] => Done []
  | loan :: rest =>
      match fault e (SelectLoanPayments (loan_id loan)) with
      | Some err => Err err
      | None =>
          match overview_entries e db rest with
          | Err err => Err err
          | Done entries => Done (overview_entry loan db :: entries)
          end
      end
  end.

(** [app.get('/api/v1/customers/:customer_id/overview')]. *)
Definition get_overview (customer_id : string) (e : env) (db : database)
  : database * response overview :=
  match fault e SelectCustomerLoans with
  | Some err => (db, Failure 500 "Database error." (Some err))
  | None =>
      match loans_of customer_id db with
      | [] => (db, NoLoansFound)
      | (_ :: _) as loans =>
          match overview_entries e db loans with
          | Err err => (db, Failure 500 "Error processing loan details." (Some err))
          | Done resolvedLoans =>
              (db, Success 200
                     (mkOverview customer_id (List.length resolvedLoans) resolvedLoans))
          end
      end
  end.

End Sqlite.

(** ** The PostgreSQL variant (backend/server.js, modified for PostgreSQL)

    Every statement goes through [db.query]; the pool is taken as one
    connection, which is what a single request in flight gets. *)

Module Pg.

(** [app.post('/api/v1/loans')]. *)
Definition create_loan (req : loan_request) (e : env) (db : database)
  : database * response loan_created :=
  if missing_loan_parameters req then (db, MissingLoanParameters)
  else if invalid_loan_parameters req then (db, InvalidLoanParameters)
  else
    let customer_id := JS.str (req_customer_id req) in
    let loan_amount := JS.num (req_loan_amount req) in
    let loan_period_years := JS.num (req_loan_period_years req) in
    let interest_rate_yearly := JS.num (req_interest_rate_yearly req) in
    let catch (d : database) (err : string) : database * response loan_created :=
      (d, Failure 500 "Error creating loan." (Some err)) in
    match fault e SelectCustomer with
    | Some err => catch db err
    | None =>
        let provisioned :=
          match find_customer customer_id db with
          | Some _ => Done db
          | None =>
              let name := ("Customer " ++ customer_id)%string in
              insert_customer e (mkCustomer customer_id name (now e)) db
          end in
        match provisioned with
        | Err err => catch db err
        | Done db1 =>
            let loan_id := uuid e in
            let d := calculateLoanDetails loan_amount loan_period_years
                       interest_rate_yearly in
            let row := mkLoan loan_id customer_id loan_amount (totalAmount d)
                         interest_rate_yearly loan_period_years (monthlyEmi d)
                         ACTIVE (now e) in
            match insert_loan e row db1 with
            | Err err => catch db1 err
            | Done db2 =>
                (db2, Success 201
                        (mkLoanCreated loan_id customer_id (totalAmount d)
                           (monthlyEmi d) (interest d)))
            end
        end
    end.

(** [rows.reduce((sum, p) => sum + parseFloat(p.amount), 0)]. *)
Definition reduce_amounts (rows : list payment_row) : number :=
  fold_left (fun sum p => sum + JS.parseFloat (amount p)) rows 0.

(** [app.post('/api/v1/loans/:loan_id/payments')]. *)
Definition record_payment (loan_id : string) (req : payment_request)
  (e : env) (db : database) : database * response payment_recorded :=
  if missing_payment_parameters req then (db, MissingPaymentParameters)
  else if JS.le (req_amount req) 0 then (db, NonPositivePayment)
  else
    let amount := JS.num (req_amount req) in
    let payment_type := JS.str (req_payment_type req) in
    let catch (s : session) (err : string) : database * response payment_recorded :=
      (cur (exec_rollback s), Failure 500 "Error recording payment." (Some err)) in
    let s0 := idle db in
    match fault e Begin with
    | Some err => catch s0 err
    | None =>
        let s1 := exec_begin s0 in
        match fault e SelectLoan with
        | Some err => catch s1 err
        | None =>
            match find_loan loan_id (cur s1) with
            | None => (cur (exec_rollback s1), LoanNotFound)
            | Some loan =>
                match status loan with
                | PAID_OFF => (cur (exec_rollback s1), AlreadyPaidOff)
                | ACTIVE =>
                    let newPaymentId := uuid e in
                    let totalInterestCalculated :=
                      JS.parseFloat (principal_amount loan)
                      * JS.parseFloat (loan_period_years loan)
                      * (JS.parseFloat (interest_rate loan) / 100) in
                    let originalTotalAmount :=
                      JS.parseFloat (principal_amount loan)
                      + totalInterestCalculated in
                    match fault e SelectPayments with
                    | Some err => catch s1 err
                    | None =>
                        let amountPaidTillDate :=
                          reduce_amounts (payments_of loan_id (cur s1)) in
                        let balance :=
                          originalTotalAmount - amountPaidTillDate - amount in
                        let paid := balance <=? 0 in
                        let remainingBalance := if paid then 0 else balance in
                        let newStatus := if paid then PAID_OFF else status loan in
                        let emisLeft :=
                          if JS.gt (JS.parseFloat (monthly_emi loan)) 0
                          then JS.Math_ceil
                                 (JS.Math_max 0 remainingBalance
                                  / JS.parseFloat (monthly_emi loan))
                          else 0 in
                        let row := mkPayment newPaymentId loan_id amount
                                     payment_type (now e) in
                        match on_cur (insert_payment e row) s1 with
                        | Err err => catch s1 err
                        | Done s2 =>
                            match on_cur (update_status e newStatus loan_id) s2 with
                            | Err err => catch s2 err
                            | Done s3 =>
                                match fault e Commit with
                                | Some err => catch s3 err
                                | None =>
                                    (cur (exec_commit s3),
                                     Success 200
                                       (mkPaymentRecorded newPaymentId loan_id
                                          ("Payment recorded successfully. Loan status: "
                                           ++ status_text newStatus)%string
                                          remainingBalance emisLeft))
                                end
                            end
                        end
                    end
                end
            end
        end
    end.

(** [app.get('/api/v1/loans/:loan_id/ledger')]. *)
Definition get_ledger (loan_id : string) (e : env) (db : database)
  : database * response ledger :=
  let catch (err : string) : database * response ledger :=
    (db, Failure 500 "Error fetching ledger." (Some err)) in
  match fault e SelectLoan with
  | Some err => catch err
  | None =>
      match find_loan loan_id db with
      | None => (db, LoanNotFound)
      | Some loan =>
          match fault e SelectTransactions with
          | Some err => catch err
          | None =>
              let transactions :=
                map as_transaction (order_by_date (payments_of loan_id db)) in
              let totalInterestCalculated :=
                JS.parseFloat (principal_amount loan)
                * JS.parseFloat (loan_period_years loan)
                * (JS.parseFloat (interest_rate loan) / 100) in
              let originalTotalAmount :=
                JS.parseFloat (principal_amount loan) + totalInterestCalculated in
              let amountPaid :=
                fold_left (fun sum t => sum + JS.parseFloat (tx_amount t))
                  transactions 0 in
              let balanceAmount := originalTotalAmount - amountPaid in
              let emisLeft :=
                if JS.gt (JS.parseFloat (monthly_emi loan)) 0
                then JS.Math_ceil
                       (JS.Math_max 0 balanceAmount / JS.parseFloat (monthly_emi loan))
                else 0 in
              (db, Success 200
                     (mkLedger (loan_id_of loan) (customer_id loan)
                        (JS.parseFloat (principal_amount loan)) originalTotalAmount
                        (JS.parseFloat (monthly_emi loan)) amountPaid balanceAmount
                        emisLeft (status loan) transactions))
          end
      end
  end.

(** One loan of the overview: [loans.map(async (loan) => ...)]. *)
Definition overview_entry (loan : loan_row) (db : database) : overview_loan :=
  let amountPaid := reduce_amounts (payments_of (loan_id loan) db) in
  let totalInterest :=
    JS.parseFloat (principal_amount loan) * JS.parseFloat (loan_period_years loan)
    * (JS.parseFloat (interest_rate loan) / 100) in
  let totalAmountPayable := JS.parseFloat (principal_amount loan) + totalInterest in
  let balanceAmount := totalAmountPayable - amountPaid in
  let emisLeft :=
    if JS.gt (JS.parseFloat (monthly_emi loan)) 0
    then JS.Math_ceil
           (JS.Math_max 0 balanceAmount / JS.parseFloat (monthly_emi loan))
    else 0 in
  mkOverviewLoan (loan_id loan) (JS.parseFloat (principal_amount loan))
    totalAmountPayable totalInterest (JS.parseFloat (monthly_emi loan))
    amountPaid emisLeft (status loan).

Fixpoint overview_entries (e : env) (db : database) (loans : list loan_row)
  : result (list overview_loan) :=
  match loans with
  | [] => Done []
  | loan :: rest =>
      match fault e (SelectLoanPayments (loan_id loan)) with
      | Some err => Err err
      | None =>
          match overview_entries e db rest with
          | Err err => Err err
          | Done entries => Done (overview_entry loan db :: entries)
          end
      end
  end.

(** [app.get('/api/v1/customers/:customer_id/overview')]. *)
Definition get_overview (customer_id : string) (e : env) (db : database)
  : database * response overview :=
  let catch (err : string) : database * response overview :=
    (db, Failure 500 "Error processing customer overview." (Some err)) in
  match fault e SelectCustomerLoans with
  | Some err => catch err
  | None =>
      match loans_of customer_id db with
      | [] => (db, NoLoansFound)
      | (_ :: _) as loans =>
          match overview_entries e db loans with
          | Err err => catch err
          | Done resolvedLoans =>
              (db, Success 200
                     (mkOverview customer_id (List.length resolvedLoans) resolvedLoans))
          end
      end
  end.

End Pg.

(** ** Bodies that carry strings (src/backend/server.js)

    The handlers read the fields of [req.body] as they come.  Above, the
    numeric fields of a body are numbers.  Here a field may also be a string
    of decimal digits, with the conversions JavaScript and SQLite apply to
    it; a conversion outside this fragment gives [None]. *)

Module Untyped.

Inductive value : Type :=
| JUndefined
| JNumber (x : number)
| JString (s : string).

(** The integer written by a string of decimal digits, below 2^53. *)
Definition digits_value (s : string) : option Z :=
  match NilZero.uint_of_string s with
  | Some d => if (Z.of_uint d <? 2 ^ 53)%Z then Some (Z.of_uint d) else None
  | None => None
  end.

(** The non-negative integer below 2^53 that a number is, if it is one. *)
Definition integer_value (x : number) : option Z :=
  match Prim2SF x with
  | S754_zero _ => Some 0%Z
  | S754_finite false m e =>
      let z :=
        if (0 <=? e)%Z then Some (Z.pos m * 2 ^ e)%Z
        else if (Z.pos m mod 2 ^ (- e) =? 0)%Z then Some (Z.pos m / 2 ^ (- e))%Z
        else None in
      match z with
      | Some n => if (n <? 2 ^ 53)%Z then Some n else None
      | None => None
      end
  | _ => None
  end.

(** [ToNumber]. *)
Definition ToNumber (v : value) : option number :=
  match v with
  | JUndefined => Some nan
  | JNumber x => Some x
  | JString s => option_map (fun z => of_uint63 (Uint63.of_Z z)) (digits_value s)
  end.

(** [ToString]. *)
Definition ToString (v : value) : option string :=
  match v with
  | JUndefined => Some "undefined"%string
  | JNumber x =>
      option_map (fun z => NilZero.string_of_uint (N.to_uint (Z.to_N z)))
        (integer_value x)
  | JString s => Some s
  end.

(** [!v]. *)
Definition not (v : value) : bool :=
  match v with
  | JUndefined => true
  | JNumber x => is_zero x || is_nan x
  | JString s => String.eqb s EmptyString
  end.

(** [v <= y] and [v < y] against a number. *)
Definition le (v : value) (y : number) : option bool :=
  option_map (fun x => x <=? y) (ToNumber v).

Definition lt (v : value) (y : number) : option bool :=
  option_map (fun x => x <? y) (ToNumber v).

(** [a * b] and [a / b]: both operands are converted to numbers. *)
Definition mul (a b : value) : option number :=
  match ToNumber a, ToNumber b with
  | Some x, Some y => Some (x * y)
  | _, _ => None
  end.

Definition div (a b : value) : option number :=
  match ToNumber a, ToNumber b with
  | Some x, Some y => Some (x / y)
  | _, _ => None
  end.

(** [a + b]: concatenation as soon as one operand is a string. *)
Definition add (a b : value) : option value :=
  match a, b with
  | JString _, _ | _, JString _ =>
      match ToString a, ToString b with
      | Some x, Some y => Some (JString (x ++ y))
      | _, _ => None
      end
  | _, _ =>
      match ToNumber a, ToNumber b with
      | Some x, Some y => Some (JNumber (x + y))
      | _, _ => None
      end
  end.

Record details : Type := mkDetails {
  totalAmount : value;
  monthlyEmi : number;
  interest : number
}.

(** [calculateLoanDetails] on the fields as they come. *)
Definition calculateLoanDetails (principal years rate : value) : option details :=
  match mul principal years, div rate (JNumber 100) with
  | Some py, Some r =>
      let interest := py * r in
      match add principal (JNumber interest) with
      | Some totalAmount =>
          match mul years (JNumber 12) with
          | Some months =>
              match div totalAmount (JNumber months) with
              | Some monthlyEmi => Some (mkDetails totalAmount monthlyEmi interest)
              | None => None
              end
          | None => None
          end
      | None => None
      end
  | _, _ => None
  end.

Record loan_body : Type := mkLoanBody {
  body_customer_id : option string;
  body_loan_amount : value;
  body_loan_period_years : value;
  body_interest_rate_yearly : value
}.

(** The 201 answer; [total_amount_payable] is whatever [+] returned. *)
Record loan_answer : Type := mkLoanAnswer {
  ans_loan_id : string;
  ans_customer_id : string;
  ans_total_amount_payable : value;
  ans_monthly_emi : number;
  ans_total_interest : number
}.

(** A parameter bound to a REAL or INTEGER column: a number is stored as it
    is, the text of a number is converted to that number. *)
Definition bind_numeric (v : value) : option number :=
  match v with
  | JUndefined => None
  | _ => ToNumber v
  end.

(** [app.post('/api/v1/loans')] of the SQLite variant. *)
Definition create_loan (req : loan_body) (e : env) (db : database)
  : option (database * response loan_answer) :=
  if JS.not_str (body_customer_id req) || not (body_loan_amount req)
     || not (body_loan_period_years req) || not (body_interest_rate_yearly req)
  then Some (db, MissingLoanParameters)
  else
    let invalid :=
      match le (body_loan_amount req) 0 with
      | Some false =>
          match le (body_loan_period_years req) 0 with
          | Some false => lt (body_interest_rate_yearly req) 0
          | other => other
          end
      | other => other
      end in
    match invalid with
    | None => None
    | Some true => Some (db, InvalidLoanParameters)
    | Some false =>
        let customer_id := JS.str (body_customer_id req) in
        match fault e SelectCustomer with
        | Some err => Some (db, Failure 500 "Database error." (Some err))
        | None =>
            let db1 :=
              match find_customer customer_id db with
              | Some _ => db
              | None =>
                  let name := ("Customer " ++ customer_id)%string in
                  match insert_customer e (mkCustomer customer_id name (now e)) db with
                  | Done d => d
                  | Err _ => db
                  end
              end in
            let loan_id := uuid e in
            match calculateLoanDetails (body_loan_amount req)
                    (body_loan_period_years req) (body_interest_rate_yearly req),
                  bind_numeric (body_loan_amount req),
                  bind_numeric (body_interest_rate_yearly req),
                  bind_numeric (body_loan_period_years req) with
            | Some d, Some principal, Some rate, Some years =>
                match bind_numeric (totalAmount d) with
                | Some total =>
                    let row := mkLoan loan_id customer_id principal total rate years
                                 (monthlyEmi d) ACTIVE (now e) in
                    match insert_loan e row db1 with
                    | Err err =>
                        Some (db1, Failure 500 "Error creating loan." (Some err))
                    | Done db2 =>
                        Some (db2, Success 201
                                     (mkLoanAnswer loan_id customer_id (totalAmount d)
                                        (monthlyEmi d) (interest d)))
                    end
                | None => None
                end
            | _, _, _, _ => None
            end
        end
    end.

(** A body whose numeric fields are numbers, and its answer. *)
Definition of_field (x : option number) : value :=
  match x with
  | Some v => JNumber v
  | None => JUndefined
  end.

Definition of_request (req : loan_request) : loan_body :=
  mkLoanBody (req_customer_id req) (of_field (req_loan_amount req))
    (of_field (req_loan_period_years req))
    (of_field (req_interest_rate_yearly req)).

Definition of_response (r : response loan_created) : response loan_answer :=
  match r with
  | Success code body =>
      Success code
        (mkLoanAnswer (lc_loan_id body) (lc_customer_id body)
           (JNumber (total_amount_payable body)) (lc_monthly_emi body)
           (total_interest body))
  | Failure code message error => Failure code message error
  end.

(** The body of the request that sends the amount as the string 1000. *)
Definition string_amount : loan_body :=
  mkLoanBody (Some "cust-1"%string) (JString "1000") (JNumber 2) (JNumber 10).

End Untyped.

(** ** The service: either variant, one request at a time *)

Inductive backend : Type :=
| SQLite
| PostgreSQL.

Definition create_loan (b : backend) :=
  match b with
  | SQLite => Sqlite.create_loan
  | PostgreSQL => Pg.create_loan
  end.

Definition record_payment (b : backend) :=
  match b with
  | SQLite => Sqlite.record_payment
  | PostgreSQL => Pg.record_payment
  end.

Definition get_ledger (b : backend) :=
  match b with
  | SQLite => Sqlite.get_ledger
  | PostgreSQL => Pg.get_ledger
  end.

Definition get_overview (b : backend) :=
  match b with
  | SQLite => Sqlite.get_overview
  | PostgreSQL => Pg.get_overview
  end.

Inductive operation : Type :=
| CreateLoan (req : loan_request)
| RecordPayment (loan_id : string) (req : payment_request)
| GetLedger (loan_id : string)
| GetOverview (customer_id : string).

(** The state a request leaves behind. *)
Definition step (b : backend) (op : operation) (e : env) (db : database) : database :=
  match op with
  | CreateLoan req => fst (create_loan b req e db)
  | RecordPayment id req => fst (record_payment b id req e db)
  | GetLedger id => fst (get_ledger b id e db)
  | GetOverview cid => fst (get_overview b cid e db)
  end.

Definition run (b : backend) (trace : list (operation * env)) (db : database)
  : database :=
  fold_left (fun d oe => step b (fst oe) (snd oe) d) trace db.

(** The states of a service started on the empty schema. *)
Definition reachable (b : backend) (db : database) : Prop :=
  exists trace, run b trace empty_db = db.

(** How a loan row may differ after any number of requests: only in its
    status, and only from ACTIVE to PAID_OFF. *)
Definition loan_evolves (l l' : loan_row) : Prop :=
  loan_id l' = loan_id l /\ customer_id l' = customer_id l
  /\ principal_amount l' = principal_amount l
  /\ total_amount l' = total_amount l
  /\ interest_rate l' = interest_rate l
  /\ loan_period_years l' = loan_period_years l
  /\ monthly_emi l' = monthly_emi l
  /\ created_at l' = created_at l
  /\ (status l' = status l \/ (status l = ACTIVE /\ status l' = PAID_OFF)).

(** Row by row, by position in the relation. *)
Definition loans_evolve (ls ls' : list loan_row) : Prop :=
  forall (i : nat) (l : loan_row),
    nth_error ls i = Some l ->
    exists l', nth_error ls' i = Some l' /\ loan_evolves l l'.

(** The primary key of Loans. *)
Definition keys_unique (db : database) : Prop := NoDup (map loan_id (Loans db)).

(** Every stored total and EMI is the one the calculator gives for the row. *)
Definition totals_consistent (db : database) : Prop :=
  forall l : loan_row,
    In l (Loans db) ->
    total_amount l = originalTotalAmount l
    /\ monthly_emi l = total_amount l / (loan_period_years l * 12).

(** The state a recorded payment leaves: one more row, one status set. *)
Definition settled (db : database) (id : string) (s : loan_status)
  (row : payment_row) : database :=
  mkDb (Customers db)
    (map (fun l => if String.eqb (loan_id l) id then set_status s l else l) (Loans db))
    (Payments db ++ [row]).

(** ** Rows the requests write, and what holds of the stored rows *)

(** The placeholder customer that loan creation provisions. *)
Definition placeholder (cid : string) (e : env) : customer_row :=
  mkCustomer cid ("Customer " ++ cid)%string (now e).

(** The Loans row that loan creation inserts for a request. *)
Definition new_loan (req : loan_request) (e : env) : loan_row :=
  let d := calculateLoanDetails (JS.num (req_loan_amount req))
             (JS.num (req_loan_period_years req))
             (JS.num (req_interest_rate_yearly req)) in
  mkLoan (uuid e) (JS.str (req_customer_id req)) (JS.num (req_loan_amount req))
    (totalAmount d) (JS.num (req_interest_rate_yearly req))
    (JS.num (req_loan_period_years req)) (monthlyEmi d) ACTIVE (now e).

(** The Payments row that payment recording inserts. *)
Definition new_payment (id : string) (a : number) (t : string) (e : env)
  : payment_row :=
  mkPayment (uuid e) id a t (now e).

(** The balance a payment of [a] leaves on a loan. *)
Definition balance_after (db : database) (loan : loan_row) (a : number) : number :=
  originalTotalAmount loan - sum_amounts (payments_of (loan_id loan) db) - a.

Definition status_after (balance : number) : loan_status :=
  if balance <=? 0 then PAID_OFF else ACTIVE.

Definition overview_entry (b : backend) :=
  match b with
  | SQLite => Sqlite.overview_entry
  | PostgreSQL => Pg.overview_entry
  end.

(** Every payment row names a loan of the store. *)
Definition payments_reference_loans (db : database) : Prop :=
  forall p : payment_row, In p (Payments db) -> find_loan (pay_loan_id p) db <> None.

(** Every loan row names a customer of the store. *)
Definition loans_reference_customers (db : database) : Prop :=
  forall l : loan_row, In l (Loans db) -> find_customer (customer_id l) db <> None.

Definition sound_loan (l : loan_row) : Prop :=
  (0 <? principal_amount l) = true /\ (0 <? loan_period_years l) = true
  /\ (0 <? interest_rate l) = true.

Definition sound_payment (p : payment_row) : Prop :=
  (0 <? amount p) = true
  /\ (payment_type p = "EMI"%string \/ payment_type p = "LUMP_SUM"%string).

(** The status of a loan against its payments: PAID_OFF when the last
    payment brought the balance to zero or below, ACTIVE when it did not. *)
Definition last_payment_settles (db : database) (l : loan_row) : Prop :=
  match status l with
  | PAID_OFF =>
      exists (prior : list payment_row) (p : payment_row),
        payments_of (loan_id l) db = (prior ++ [p])%list
        /\ (originalTotalAmount l - sum_amounts prior - amount p <=? 0) = true
  | ACTIVE =>
      forall (prior : list payment_row) (p : payment_row),
        payments_of (loan_id l) db = (prior ++ [p])%list ->
        (originalTotalAmount l - sum_amounts prior - amount p <=? 0) = false
  end.

Definition well_formed (db : database) : Prop :=
  keys_unique db
  /\ NoDup (map payment_id (Payments db))
  /\ NoDup (map cust_customer_id (Customers db))
  /\ payments_reference_loans db
  /\ Forall sound_loan (Loans db)
  /\ Forall sound_payment (Payments db)
  /\ (forall l : loan_row, In l (Loans db) -> last_payment_settles db l).

Definition date_le (p q : payment_row) : Prop :=
  (payment_date p <= payment_date q)%Z.

Definition date_lt (p q : payment_row) : Prop :=
  (payment_date p < payment_date q)%Z.

(** ** A worked scenario: one loan of 1000 over 2 years at 10%, paid by 700
    and then 600 *)

Module Scenario.

Definition env1 : env := mkEnv "loan-1" 1 no_fault.
Definition env2 : env := mkEnv "pay-1" 2 no_fault.
Definition env3 : env := mkEnv "pay-2" 3 no_fault.
Definition env4 : env := mkEnv "pay-3" 4 no_fault.

(** A run in which the status update fails. *)
Definition update_fails : env :=
  mkEnv "pay-2" 3
    (fun s => match s with UpdateLoan => Some "disk I/O error" | _ => None end).

Definition lend : loan_request :=
  mkLoanRequest (Some "cust-1") (Some 1000) (Some 2) (Some 10).

Definition pay (a : number) (t : string) : payment_request :=
  mkPaymentRequest (Some a) (Some t).

Definition opened (b : backend) : database :=
  run b [(CreateLoan lend, env1)] empty_db.

Definition part_paid (b : backend) : database :=
  run b [(CreateLoan lend, env1); (RecordPayment "loan-1" (pay 700 "EMI"), env2)]
    empty_db.

Definition overpaid (b : backend) : database :=
  run b [(CreateLoan lend, env1);
         (RecordPayment "loan-1" (pay 700 "EMI"), env2);
         (RecordPayment "loan-1" (pay 600 "LUMP_SUM"), env3)] empty_db.

(** A run in which the loan insert fails. *)
Definition loan_insert_fails : env :=
  mkEnv "loan-1" 1
    (fun s => match s with InsertLoan => Some "disk I/O error" | _ => None end).

(** A run in which provisioning the customer fails. *)
Definition customer_insert_fails : env :=
  mkEnv "loan-1" 1
    (fun s => match s with InsertCustomer => Some "disk I/O error" | _ => None end).

End Scenario.

(** ** Facts about numbers and lookups *)

(** Case analysis on a scrutinee of the goal that tests nothing itself. *)
Ltac case_scrutinee :=
  match goal with
  | |- context [match ?x with _ => _ end] =>
      lazymatch x with
      | context [match _ with _ => _ end] => fail
      | _ => destruct x eqn:?
      end
  end.

Example Math_ceil_values :
  JS.Math_ceil 22.5 = 23 /\ JS.Math_ceil 23 = 23 /\ JS.Math_ceil 0 = 0
  /\ JS.Math_ceil (-1.5) = -1 /\ JS.Math_ceil (-0.5) = neg_zero
  /\ JS.Math_ceil 0.25 = 1 /\ JS.Math_ceil nan = nan
  /\ JS.Math_ceil infinity = infinity
  /\ JS.Math_ceil 4503599627370495.5 = 4503599627370496.
Proof. repeat split; reflexivity. Qed.

Example Math_max_values :
  JS.Math_max 0 (-100) = 0 /\ JS.Math_max 0 500 = 500 /\ JS.Math_max 0 nan = nan
  /\ JS.Math_max 0 neg_zero = 0 /\ JS.Math_max neg_zero 0 = 0
  /\ JS.Math_max 0 neg_infinity = 0.
Proof. repeat split; reflexivity. Qed.

Lemma Prim2SF_zero : Prim2SF 0 = S754_zero false.
Proof. reflexivity. Qed.

Lemma SFcompare_finite_refl (s : bool) (m : positive) (e : Z) :
  SFcompare (S754_finite s m e) (S754_finite s m e) = Some Eq.
Proof.
  unfold SFcompare. rewrite Z.compare_refl.
  destruct s; rewrite ?Pos.compare_cont_refl; reflexivity.
Qed.

(** A number above zero is truthy and fails [x <= 0]. *)
Lemma positive_number (a : number) :
  (0 <? a) = true ->
  is_zero a = false /\ is_nan a = false /\ (a <=? 0) = false.
Proof.
  intros H. unfold is_zero, is_nan.
  rewrite FloatAxioms.ltb_spec in H.
  rewrite !FloatAxioms.eqb_spec, FloatAxioms.leb_spec.
  change (Prim2SF zero) with (S754_zero false).
  rewrite Prim2SF_zero in *.
  destruct (Prim2SF a) as [s | s | | s m e]; try destruct s;
    try discriminate H; unfold SFeqb, SFleb;
    rewrite ?SFcompare_finite_refl; repeat split; reflexivity.
Qed.

Lemma positive_amount_accepted (a : number) (t : string) :
  (0 <? a) = true -> t = "EMI"%string \/ t = "LUMP_SUM"%string ->
  missing_payment_parameters (mkPaymentRequest (Some a) (Some t)) = false
  /\ JS.le (req_amount (mkPaymentRequest (Some a) (Some t))) 0 = false.
Proof.
  intros Ha Ht. destruct (positive_number a Ha) as (Hz & Hn & Hle).
  unfold missing_payment_parameters, JS.le. simpl.
  rewrite Hz, Hn, Hle. destruct Ht; subst t; split; reflexivity.
Qed.

Lemma find_loan_update (id : string) (s : loan_status) (ls : list loan_row) :
  find (fun l => String.eqb (loan_id l) id)
    (map (fun l => if String.eqb (loan_id l) id then set_status s l else l) ls)
  = option_map (set_status s) (find (fun l => String.eqb (loan_id l) id) ls).
Proof.
  induction ls as [| l ls IH]; simpl; [reflexivity |].
  destruct (String.eqb (loan_id l) id) eqn:E; simpl; rewrite E; simpl.
  - reflexivity.
  - exact IH.
Qed.

Lemma find_loan_settled (db : database) (id : string) (s : loan_status)
  (row : payment_row) (loan : loan_row) :
  find_loan id db = Some loan ->
  option_map status (find_loan id (settled db id s row)) = Some s.
Proof.
  unfold find_loan, settled; simpl. intros H.
  rewrite find_loan_update, H. reflexivity.
Qed.

(** ** Payment recording *)

(** C1. For an existing ACTIVE loan and a valid payment of amount a > 0
    (no statement failing, the new identifier unused), record-payment
    answers 200 with the balance
    originalTotalAmount - (sum of the prior payments of the loan) - a:
    when that is <= 0 the answer carries remaining_balance 0 and the loan
    becomes PAID_OFF, otherwise it carries the balance itself and the loan
    stays ACTIVE; the payment is appended to the Payments relation. *)
Theorem payment_reconciliation (b : backend) (db : database) (id : string)
  (loan : loan_row) (a : number) (t : string) (e : env) :
  find_loan id db = Some loan ->
  status loan = ACTIVE ->
  (0 <? a) = true ->
  t = "EMI"%string \/ t = "LUMP_SUM"%string ->
  (forall s, fault e s = None) ->
  existsb (fun p => String.eqb (payment_id p) (uuid e)) (Payments db) = false ->
  let balance := originalTotalAmount loan - sum_amounts (payments_of id db) - a in
  exists (body : payment_recorded) (s' : loan_status),
    record_payment b id (mkPaymentRequest (Some a) (Some t)) e db
    = (settled db id s' (mkPayment (uuid e) id a t (now e)), Success 200 body)
    /\ option_map status
         (find_loan id (settled db id s' (mkPayment (uuid e) id a t (now e))))
       = Some s'
    /\ ((balance <=? 0) = true -> remaining_balance body = 0 /\ s' = PAID_OFF)
    /\ ((balance <=? 0) = false -> remaining_balance body = balance /\ s' = ACTIVE).
Proof.
  intros Hfind Hst Ha Ht Hnf Hfresh balance.
  destruct (positive_amount_accepted a t Ha Ht) as [Hmiss Hle].
  assert (Hins : forall s, cur s = db ->
             on_cur (insert_payment e (mkPayment (uuid e) id a t (now e))) s
             = Done (mkSession (mkDb (Customers db) (Loans db)
                                  (Payments db ++ [mkPayment (uuid e) id a t (now e)]))
                       (saved s))).
  { intros s Hs. unfold on_cur, insert_payment. rewrite Hnf, Hs. simpl payment_id.
    rewrite Hfresh. reflexivity. }
  destruct b; unfold record_payment, Sqlite.record_payment, Pg.record_payment;
    rewrite Hmiss, Hle; cbv zeta; rewrite ?Hnf; simpl cur; rewrite Hfind, Hst;
    simpl JS.num; simpl JS.str; rewrite Hins by reflexivity;
    unfold on_cur, update_status; rewrite Hnf; simpl;
    unfold JS.parseFloat, Pg.reduce_amounts, JS.parseFloat;
    fold (sum_amounts (payments_of id db)); fold (originalTotalAmount loan);
    fold balance;
    (eexists; exists (if balance <=? 0 then PAID_OFF else ACTIVE);
     split; [reflexivity |]; split; [apply (find_loan_settled _ _ _ _ loan Hfind) |];
     split; intros Hb; rewrite Hb; simpl; split; reflexivity).
Qed.

Lemma payment_reconciliation_witness :
  exists (body : payment_recorded) (s' : loan_status),
    record_payment SQLite "loan-1" (Scenario.pay 600 "LUMP_SUM") Scenario.env3
      (Scenario.part_paid SQLite)
    = (settled (Scenario.part_paid SQLite) "loan-1" s'
         (mkPayment "pay-2" "loan-1" 600 "LUMP_SUM" 3), Success 200 body)
    /\ remaining_balance body = 0 /\ s' = PAID_OFF.
Proof.
  destruct (payment_reconciliation SQLite (Scenario.part_paid SQLite) "loan-1"
              (mkLoan "loan-1" "cust-1" 1000 1200 10 2 50 ACTIVE 1)
              600 "LUMP_SUM" Scenario.env3)
    as (body & s' & Hrun & _ & Hpaid & _).
  - reflexivity.
  - reflexivity.
  - reflexivity.
  - right; reflexivity.
  - intros s; reflexivity.
  - reflexivity.
  - exists body, s'. split; [exact Hrun | apply Hpaid; reflexivity].
Defined.

(** ** The amortization calculator *)

(** C2. For every principal, period and rate (so for P > 0, Y >= 1, R >= 0)
    the calculator returns interest = P*Y*(R/100), totalAmount = P + interest
    and monthlyEmi = totalAmount/(Y*12), in binary64 arithmetic; and
    compute(12000, 1, 10) is interest 1200, total 13200, EMI 1100. *)
Theorem amortization_formula :
  (forall P Y R : number,
      interest (calculateLoanDetails P Y R) = P * Y * (R / 100)
      /\ totalAmount (calculateLoanDetails P Y R)
         = P + interest (calculateLoanDetails P Y R)
      /\ monthlyEmi (calculateLoanDetails P Y R)
         = totalAmount (calculateLoanDetails P Y R) / (Y * 12))
  /\ calculateLoanDetails 12000 1 10 = mkDetails 13200 1100 1200.
Proof.
  split.
  - intros P Y R. unfold calculateLoanDetails; simpl. repeat split.
  - reflexivity.
Qed.

(** ** Transactions *)

Lemma on_cur_saved (f : database -> result database) (s s' : session) :
  on_cur f s = Done s' -> saved s' = saved s.
Proof.
  unfold on_cur. destruct (f (cur s)); intros H; inversion H; reflexivity.
Qed.

Lemma rollback_saved (s : session) (d : database) :
  saved s = Some d -> cur (exec_rollback s) = d.
Proof. unfold exec_rollback. intros ->. reflexivity. Qed.

(** A payment request that is not answered 200 leaves the store as it was. *)
Lemma failed_payment_unchanged (b : backend) (db : database) (id : string)
  (req : payment_request) (e : env) :
  is_failure (snd (record_payment b id req e db)) = true ->
  fst (record_payment b id req e db) = db.
Proof.
  destruct b; unfold record_payment, Sqlite.record_payment, Pg.record_payment;
    cbv zeta;
    repeat match goal with
      | |- context [match ?x with _ => _ end] => destruct x eqn:?
      end; simpl fst; simpl snd; simpl is_failure;
    intros H; try discriminate H; try reflexivity;
    repeat match goal with
      | H : on_cur _ _ = Done _ |- _ => apply on_cur_saved in H
      end;
    apply rollback_saved; cbn [exec_begin idle saved cur] in *; congruence.
Qed.

(** C4. A payment run on an ACTIVE loan, past validation, in which the
    statement summing the prior payments, the Payment insert or the status
    update fails is answered 500 and leaves the store exactly as it was: no
    Payment row is added and the loan keeps its status. *)
Theorem payment_failure_rolls_back (b : backend) (db : database) (id : string)
  (loan : loan_row) (a : number) (t : string) (e : env) (s : site) (err : string) :
  find_loan id db = Some loan ->
  status loan = ACTIVE ->
  (0 <? a) = true ->
  t = "EMI"%string \/ t = "LUMP_SUM"%string ->
  s = SelectPayments \/ s = InsertPayment \/ s = UpdateLoan ->
  fault e s = Some err ->
  exists (message error : string),
    record_payment b id (mkPaymentRequest (Some a) (Some t)) e db
    = (db, Failure 500 message (Some error)).
Proof.
  intros Hfind Hst Ha Ht Hs Herr.
  destruct (positive_amount_accepted a t Ha Ht) as [Hmiss Hle].
  pose proof (failed_payment_unchanged b db id
                (mkPaymentRequest (Some a) (Some t)) e) as Hsame.
  destruct (record_payment b id (mkPaymentRequest (Some a) (Some t)) e db)
    as [db' r] eqn:Hrun.
  simpl in Hsame.
  assert (Hr : exists message error, r = Failure 500 message (Some error)).
  { clear Hsame.
    destruct b; unfold record_payment, Sqlite.record_payment, Pg.record_payment in Hrun;
      rewrite Hmiss, Hle in Hrun; cbv zeta in Hrun;
      cbn [cur exec_begin idle saved] in Hrun;
      repeat match type of Hrun with
        | context [match fault e ?x with _ => _ end] =>
            destruct (fault e x) eqn:?
        | context [find_loan id db] => rewrite Hfind, Hst in Hrun
        | context [on_cur] => unfold on_cur, insert_payment, update_status in Hrun
        | context [if existsb ?f ?l then _ else _] => destruct (existsb f l) eqn:?
        end;
      inversion Hrun; subst; eauto;
      destruct Hs as [-> | [-> | ->]]; congruence. }
  destruct Hr as (message & error & ->).
  rewrite (Hsame eq_refl). eauto.
Qed.

Lemma payment_failure_rolls_back_witness :
  exists (message error : string),
    record_payment PostgreSQL "loan-1" (Scenario.pay 600 "EMI") Scenario.update_fails
      (Scenario.part_paid PostgreSQL)
    = (Scenario.part_paid PostgreSQL, Failure 500 message (Some error)).
Proof.
  apply (payment_failure_rolls_back PostgreSQL (Scenario.part_paid PostgreSQL)
           "loan-1" (mkLoan "loan-1" "cust-1" 1000 1200 10 2 50 ACTIVE 1)
           600 "EMI" Scenario.update_fails UpdateLoan "disk I/O error").
  - reflexivity.
  - reflexivity.
  - reflexivity.
  - left; reflexivity.
  - right; right; reflexivity.
  - reflexivity.
Defined.

(** C3. On a loan whose status is PAID_OFF every payment attempt fails and
    changes nothing: the store after the attempt is the store before it, so
    no Payment row is recorded and the loan is as it was.  When the store
    serves the lookup the answer is a 400; for a body that passes validation
    (amount a > 0, type EMI or LUMP_SUM) it is InvalidState, "Loan is
    already paid off.". *)
Theorem paid_off_rejects_payment (b : backend) (db : database) (id : string)
  (loan : loan_row) (req : payment_request) (e : env) :
  find_loan id db = Some loan ->
  status loan = PAID_OFF ->
  fst (record_payment b id req e db) = db
  /\ is_failure (snd (record_payment b id req e db)) = true
  /\ (fault e Begin = None -> fault e SelectLoan = None ->
      exists message : string,
        snd (record_payment b id req e db) = Failure 400 message None)
  /\ (forall (a : number) (t : string),
         req = mkPaymentRequest (Some a) (Some t) ->
         (0 <? a) = true ->
         t = "EMI"%string \/ t = "LUMP_SUM"%string ->
         fault e Begin = None -> fault e SelectLoan = None ->
         snd (record_payment b id req e db) = AlreadyPaidOff).
Proof.
  intros Hfind Hst.
  assert (Hfail : is_failure (snd (record_payment b id req e db)) = true).
  { destruct b; unfold record_payment, Sqlite.record_payment, Pg.record_payment;
      cbv zeta; cbn [cur exec_begin idle saved];
      repeat match goal with
        | |- context [find_loan id db] => rewrite Hfind, Hst
        | |- context [match ?x with _ => _ end] => destruct x eqn:?
        end; reflexivity. }
  split; [apply failed_payment_unchanged; exact Hfail |].
  split; [exact Hfail |].
  split.
  - intros Hbegin Hsel.
    destruct b; unfold record_payment, Sqlite.record_payment, Pg.record_payment;
      cbv zeta; cbn [cur exec_begin idle saved];
      rewrite ?Hbegin, Hsel, Hfind, Hst;
      destruct (missing_payment_parameters req);
      try destruct (JS.le (req_amount req) 0); eexists; reflexivity.
  - intros a t -> Ha Ht Hbegin Hsel.
    destruct (positive_amount_accepted a t Ha Ht) as [Hmiss Hle].
    destruct b; unfold record_payment, Sqlite.record_payment, Pg.record_payment;
      rewrite Hmiss, Hle; cbv zeta; cbn [cur exec_begin idle saved];
      rewrite ?Hbegin, Hsel, Hfind, Hst; reflexivity.
Qed.

Lemma paid_off_rejects_payment_witness :
  fst (record_payment SQLite "loan-1" (Scenario.pay 100 "EMI") Scenario.env4
         (Scenario.overpaid SQLite)) = Scenario.overpaid SQLite
  /\ snd (record_payment SQLite "loan-1" (Scenario.pay 100 "EMI") Scenario.env4
            (Scenario.overpaid SQLite)) = AlreadyPaidOff.
Proof.
  destruct (paid_off_rejects_payment SQLite (Scenario.overpaid SQLite) "loan-1"
              (mkLoan "loan-1" "cust-1" 1000 1200 10 2 50 PAID_OFF 1)
              (Scenario.pay 100 "EMI") Scenario.env4)
    as (Hsame & _ & _ & Hstate).
  - reflexivity.
  - reflexivity.
  - split; [exact Hsame |].
    apply (Hstate 100 "EMI"%string); try reflexivity. left; reflexivity.
Defined.

(** ** Loan creation *)

(** C5 (the request the validation rejects).  A request with every field
    present, a positive amount and period and interest_rate_yearly = 0 is
    answered 400 "Missing required loan parameters." and no loan is
    created: [!interest_rate_yearly] holds of the number 0. *)
Theorem zero_rate_rejected (b : backend) (db : database) (e : env)
  (cid : string) (P Y : number) :
  create_loan b (mkLoanRequest (Some cid) (Some P) (Some Y) (Some 0)) e db
  = (db, MissingLoanParameters).
Proof.
  assert (H : missing_loan_parameters
                (mkLoanRequest (Some cid) (Some P) (Some Y) (Some 0)) = true).
  { unfold missing_loan_parameters. cbn [req_interest_rate_yearly JS.not_num].
    change (is_zero 0) with true. rewrite orb_true_l. apply orb_true_r. }
  destruct b; unfold create_loan, Sqlite.create_loan, Pg.create_loan;
    rewrite H; reflexivity.
Qed.

(** A request with a customer and three numbers above zero passes both
    guards. *)
Lemma positive_loan_request_accepted (cid : string) (P Y R : number) :
  cid <> EmptyString -> (0 <? P) = true -> (0 <? Y) = true -> (0 <? R) = true ->
  missing_loan_parameters (mkLoanRequest (Some cid) (Some P) (Some Y) (Some R)) = false
  /\ invalid_loan_parameters (mkLoanRequest (Some cid) (Some P) (Some Y) (Some R))
     = false.
Proof.
  intros Hc HP HY HR.
  destruct (positive_number P HP) as (Pz & Pn & Ple).
  destruct (positive_number Y HY) as (Yz & Yn & Yle).
  destruct (positive_number R HR) as (Rz & Rn & Rle).
  unfold missing_loan_parameters, invalid_loan_parameters, JS.le, JS.lt; simpl.
  rewrite Pz, Pn, Yz, Yn, Rz, Rn, Ple, Yle.
  apply String.eqb_neq in Hc. rewrite Hc. split; [reflexivity |].
  simpl. rewrite FloatAxioms.ltb_spec in *. rewrite Prim2SF_zero in *.
  destruct (Prim2SF R) as [s | s | | s m x]; try destruct s;
    try discriminate HR; reflexivity.
Qed.

(** The same request with a rate of 5 is served: the second guard,
    [interest_rate_yearly < 0], is the one that states the constraint. *)
Example positive_rate_accepted (b : backend) :
  snd (create_loan b (mkLoanRequest (Some "cust-1") (Some 1000) (Some 1) (Some 5))
         Scenario.env1 empty_db)
  = Success 201 (mkLoanCreated "loan-1" "cust-1" 1050 (1050 / 12) 50).
Proof. destruct b; reflexivity. Qed.

(** C10. The period is not required to be integral: in the SQLite variant
    the request with loan_period_years = 1.5 (amount 1000, rate 50) passes
    validation and a loan is created whose interest 750, total 1750 and EMI
    1750/18 are computed from the fractional period, which is stored as it
    came. *)
Theorem fractional_period_accepted :
  JS.Math_ceil 1.5 = 2
  /\ calculateLoanDetails 1000 1.5 50 = mkDetails 1750 (1750 / (1.5 * 12)) 750
  /\ create_loan SQLite
       (mkLoanRequest (Some "cust-1") (Some 1000) (Some 1.5) (Some 50))
       Scenario.env1 empty_db
     = (mkDb [mkCustomer "cust-1" "Customer cust-1" 1]
          [mkLoan "loan-1" "cust-1" 1000 1750 50 1.5 (1750 / 18) ACTIVE 1] [],
        Success 201 (mkLoanCreated "loan-1" "cust-1" 1750 (1750 / 18) 750)).
Proof. repeat split; reflexivity. Qed.

(** ** Ledger read *)

Lemma sum_transactions_of_rows (rows : list payment_row) :
  sum_transactions (map as_transaction rows) = sum_amounts rows.
Proof.
  unfold sum_transactions, sum_amounts. generalize 0.
  induction rows as [| p rows IH]; intros acc; simpl; [reflexivity | apply IH].
Qed.

(** C6 (as the code has it).  The ledger of an existing loan, both reads
    served, reports amount_paid = the sum of the loan's Payment amounts in
    date order, total_amount = the total recomputed from principal, period
    and rate, balance_amount = total_amount - amount_paid with no floor at
    zero, and emis_left = ceil(max(0, balance_amount) / monthly_emi) when
    monthly_emi > 0, else 0; the store is not changed. *)
Theorem ledger_figures (b : backend) (db : database) (id : string)
  (loan : loan_row) (e : env) :
  find_loan id db = Some loan ->
  fault e SelectLoan = None ->
  fault e SelectTransactions = None ->
  exists body : ledger,
    get_ledger b id e db = (db, Success 200 body)
    /\ amount_paid body = sum_amounts (order_by_date (payments_of id db))
    /\ lg_total_amount body = originalTotalAmount loan
    /\ balance_amount body = originalTotalAmount loan - amount_paid body
    /\ lg_emis_left body
       = (if 0 <? monthly_emi loan
          then JS.Math_ceil (JS.Math_max 0 (balance_amount body) / monthly_emi loan)
          else 0)
    /\ lg_status body = status loan.
Proof.
  intros Hfind Hsel Htx.
  destruct b; unfold get_ledger, Sqlite.get_ledger, Pg.get_ledger; cbv zeta;
    rewrite Hsel, Hfind, Htx; eexists; (split; [reflexivity |]);
    cbn [amount_paid lg_total_amount balance_amount lg_emis_left lg_status];
    unfold JS.parseFloat, JS.gt;
    fold (sum_transactions
            (map as_transaction (order_by_date (payments_of id db))));
    rewrite sum_transactions_of_rows; repeat split; reflexivity.
Qed.

Lemma ledger_figures_witness :
  exists body : ledger,
    get_ledger PostgreSQL "loan-1" Scenario.env4 (Scenario.overpaid PostgreSQL)
    = (Scenario.overpaid PostgreSQL, Success 200 body)
    /\ amount_paid body = 1300
    /\ balance_amount body = 1200 - 1300
    /\ lg_emis_left body = 0.
Proof.
  destruct (ledger_figures PostgreSQL (Scenario.overpaid PostgreSQL) "loan-1"
              (mkLoan "loan-1" "cust-1" 1000 1200 10 2 50 PAID_OFF 1) Scenario.env4)
    as (body & Hrun & Hpaid & _ & Hbal & Hemi & _).
  - reflexivity.
  - reflexivity.
  - reflexivity.
  - exists body. split; [exact Hrun |]. split; [exact Hpaid |].
    rewrite Hemi, Hbal, Hpaid. split; reflexivity.
Defined.

(** C6, as stated, fails on the loan of the scenario once 700 and 600 are
    paid against its total of 1200: the ledger reports balance_amount -100,
    where max(0, total_amount - amount_paid) is 0. *)
Lemma overpaid_ledger_balance_negative :
  exists body : ledger,
    get_ledger SQLite "loan-1" Scenario.env4 (Scenario.overpaid SQLite)
    = (Scenario.overpaid SQLite, Success 200 body)
    /\ lg_total_amount body = 1200
    /\ amount_paid body = 1300
    /\ balance_amount body = -100
    /\ JS.Math_max 0 (lg_total_amount body - amount_paid body) = 0
    /\ balance_amount body <> JS.Math_max 0 (lg_total_amount body - amount_paid body).
Proof.
  eexists. split; [reflexivity |]. cbn [lg_total_amount amount_paid balance_amount].
  repeat split; try reflexivity.
  intros H. apply (f_equal (fun x => x <? 0)) in H. vm_compute in H. discriminate H.
Qed.

(** ** The payment type does not enter the reconciliation *)

(** C9. For every store, loan and amount, the run of record-payment with
    payment_type EMI and the run with LUMP_SUM (same loan, amount,
    identifier, clock and faults) give the same response (so the same
    remaining_balance, emis_left and status message) and the same Customers
    and Loans; either both leave Payments as it was or each appends one row,
    the two rows differing in payment_type alone. *)
Theorem payment_type_noninterference (b : backend) (db : database) (id : string)
  (a : option number) (e : env) :
  let emi := record_payment b id (mkPaymentRequest a (Some "EMI"%string)) e db in
  let lump := record_payment b id (mkPaymentRequest a (Some "LUMP_SUM"%string)) e db in
  snd emi = snd lump
  /\ Customers (fst emi) = Customers (fst lump)
  /\ Loans (fst emi) = Loans (fst lump)
  /\ ((Payments (fst emi) = Payments db /\ Payments (fst lump) = Payments db)
      \/ (Payments (fst emi)
          = (Payments db ++ [mkPayment (uuid e) id (JS.num a) "EMI" (now e)])%list
          /\ Payments (fst lump)
             = (Payments db
                ++ [mkPayment (uuid e) id (JS.num a) "LUMP_SUM" (now e)])%list)).
Proof.
  destruct b; unfold record_payment, Sqlite.record_payment, Pg.record_payment;
    unfold missing_payment_parameters; cbn [req_amount req_payment_type JS.not_str
      JS.str known_type String.eqb Ascii.eqb Bool.eqb orb andb negb];
    cbv zeta; cbn [cur exec_begin idle saved];
    unfold on_cur, insert_payment, update_status, JS.gt, JS.parseFloat;
    cbn [cur saved payment_id exec_rollback exec_commit];
    repeat (case_scrutinee;
            cbn [fst snd Customers Loans Payments cur saved exec_rollback exec_commit]);
    repeat split; try reflexivity; try congruence; auto.
Qed.

(** ** What the requests do to the Loans relation *)

(** Shape of the store after a payment request. *)
Lemma record_payment_shape (b : backend) (id : string) (req : payment_request)
  (e : env) (db : database) :
  fst (record_payment b id req e db) = db
  \/ exists (loan : loan_row) (s : loan_status) (row : payment_row),
       find_loan id db = Some loan /\ status loan = ACTIVE
       /\ fst (record_payment b id req e db) = settled db id s row.
Proof.
  destruct (is_failure (snd (record_payment b id req e db))) eqn:Hf.
  - left. apply failed_payment_unchanged, Hf.
  - right. revert Hf.
    destruct b; unfold record_payment, Sqlite.record_payment, Pg.record_payment;
      cbv zeta; cbn [cur exec_begin idle saved];
      unfold on_cur, insert_payment, update_status;
      cbn [cur saved payment_id];
      repeat (case_scrutinee; cbn [fst snd is_failure cur saved exec_commit]);
      intros Hf; try discriminate Hf;
      repeat match goal with
        | H : Done _ = Done _ |- _ => inversion H; clear H; subst
        | H : Err _ = Done _ |- _ => discriminate H
        end;
      cbn [cur Customers Loans Payments];
      eexists; eexists; eexists; (split; [reflexivity |]);
      (split; [assumption | reflexivity]).
Qed.

(** Shape of the store after a loan request: at most one ACTIVE row of a new
    key is appended to Loans, its total and EMI those of the calculator. *)
Lemma create_loan_shape (b : backend) (req : loan_request) (e : env)
  (db : database) :
  Loans (fst (create_loan b req e db)) = Loans db
  \/ exists row : loan_row,
       Loans (fst (create_loan b req e db)) = (Loans db ++ [row])%list
       /\ existsb (fun l => String.eqb (loan_id l) (loan_id row)) (Loans db) = false
       /\ status row = ACTIVE
       /\ total_amount row = originalTotalAmount row
       /\ monthly_emi row = total_amount row / (loan_period_years row * 12).
Proof.
  destruct b; unfold create_loan, Sqlite.create_loan, Pg.create_loan;
    cbv zeta; unfold insert_loan, insert_customer; cbn [loan_id Loans];
    repeat (case_scrutinee; cbn [fst Loans]);
    repeat match goal with
      | H : Done _ = Done _ |- _ => inversion H; clear H; subst
      | H : Err _ = Done _ |- _ => discriminate H
      end;
    cbn [fst Loans]; auto;
    right; eexists; (split; [reflexivity |]); cbn [loan_id Loans] in *;
    repeat split; assumption || reflexivity.
Qed.

Lemma get_ledger_pure (b : backend) (id : string) (e : env) (db : database) :
  fst (get_ledger b id e db) = db.
Proof.
  destruct b; unfold get_ledger, Sqlite.get_ledger, Pg.get_ledger; cbv zeta;
    repeat (case_scrutinee; cbn [fst]); reflexivity.
Qed.

Lemma get_overview_pure (b : backend) (cid : string) (e : env) (db : database) :
  fst (get_overview b cid e db) = db.
Proof.
  destruct b; unfold get_overview, Sqlite.get_overview, Pg.get_overview; cbv zeta;
    repeat (case_scrutinee; cbn [fst]); reflexivity.
Qed.

(** *** Loan rows only ever settle *)

Lemma loan_evolves_refl (l : loan_row) : loan_evolves l l.
Proof. unfold loan_evolves. repeat split; auto. Qed.

Lemma loan_evolves_trans (l1 l2 l3 : loan_row) :
  loan_evolves l1 l2 -> loan_evolves l2 l3 -> loan_evolves l1 l3.
Proof.
  unfold loan_evolves.
  intros (A1 & A2 & A3 & A4 & A5 & A6 & A7 & A8 & A9)
         (B1 & B2 & B3 & B4 & B5 & B6 & B7 & B8 & B9).
  repeat split; try congruence.
  destruct A9 as [A9 | [A9 A9']], B9 as [B9 | [B9 B9']].
  - left; congruence.
  - right; split; congruence.
  - right; split; congruence.
  - right; split; congruence.
Qed.

Lemma loan_evolves_set_status (l : loan_row) (s : loan_status) :
  status l = ACTIVE -> loan_evolves l (set_status s l).
Proof.
  intros H. unfold loan_evolves; simpl. repeat split.
  destruct s; [left; symmetry; exact H | right; split; [exact H | reflexivity]].
Qed.

Lemma loans_evolve_refl (ls : list loan_row) : loans_evolve ls ls.
Proof. intros i l H. exists l. split; [exact H | apply loan_evolves_refl]. Qed.

Lemma loans_evolve_trans (l1 l2 l3 : list loan_row) :
  loans_evolve l1 l2 -> loans_evolve l2 l3 -> loans_evolve l1 l3.
Proof.
  intros H12 H23 i l H.
  destruct (H12 i l H) as (l' & H' & E1).
  destruct (H23 i l' H') as (l'' & H'' & E2).
  exists l''. split; [exact H'' | exact (loan_evolves_trans _ _ _ E1 E2)].
Qed.

Lemma loans_evolve_app (ls : list loan_row) (row : loan_row) :
  loans_evolve ls (ls ++ [row]).
Proof.
  intros i l H. exists l. split; [| apply loan_evolves_refl].
  rewrite nth_error_app1; [exact H |].
  apply nth_error_Some. congruence.
Qed.

Lemma find_by_key (id : string) (ls : list loan_row) (loan l : loan_row) :
  NoDup (map loan_id ls) ->
  find (fun r => String.eqb (loan_id r) id) ls = Some loan ->
  In l ls -> loan_id l = id -> l = loan.
Proof.
  induction ls as [| r ls IH]; simpl; intros Hnd Hfind Hin Hid; [contradiction |].
  inversion Hnd as [| ? ? Hnotin Hnd']; subst.
  destruct (String.eqb (loan_id r) (loan_id l)) eqn:E.
  - apply String.eqb_eq in E. inversion Hfind; subst.
    destruct Hin as [-> | Hin]; [reflexivity |].
    exfalso. apply Hnotin. rewrite E. apply in_map, Hin.
  - destruct Hin as [-> | Hin].
    + rewrite String.eqb_refl in E. discriminate E.
    + apply IH; auto.
Qed.

Lemma loans_evolve_settled (db : database) (id : string) (s : loan_status)
  (row : payment_row) (loan : loan_row) :
  keys_unique db ->
  find_loan id db = Some loan -> status loan = ACTIVE ->
  loans_evolve (Loans db) (Loans (settled db id s row)).
Proof.
  intros Hnd Hfind Hst i l H. unfold settled; cbn [Loans].
  rewrite nth_error_map, H. cbn [option_map].
  eexists; split; [reflexivity |].
  destruct (String.eqb (loan_id l) id) eqn:E; [| apply loan_evolves_refl].
  apply String.eqb_eq in E.
  assert (l = loan) as ->
      by (apply (find_by_key id (Loans db)); auto; eapply nth_error_In; eauto).
  apply loan_evolves_set_status, Hst.
Qed.

Lemma keys_unique_settled (db : database) (id : string) (s : loan_status)
  (row : payment_row) :
  keys_unique db -> keys_unique (settled db id s row).
Proof.
  unfold keys_unique, settled; cbn [Loans]. intros H.
  rewrite map_map.
  erewrite map_ext; [exact H |].
  intros l; cbn. destruct (String.eqb (loan_id l) id); reflexivity.
Qed.

Lemma keys_unique_app (ls : list loan_row) (row : loan_row) :
  NoDup (map loan_id ls) ->
  existsb (fun l => String.eqb (loan_id l) (loan_id row)) ls = false ->
  NoDup (map loan_id (ls ++ [row])).
Proof.
  intros Hnd Hfresh. rewrite map_app; simpl.
  apply NoDup_app; [exact Hnd | repeat constructor; auto |].
  intros k Hin [<- | []].
  apply in_map_iff in Hin. destruct Hin as (l & Hk & Hin).
  assert (Hex : existsb (fun l => String.eqb (loan_id l) (loan_id row)) ls = true).
  { apply existsb_exists. exists l. split; [exact Hin |].
    rewrite Hk. apply String.eqb_refl. }
  congruence.
Qed.

(** One request. *)
Lemma step_evolves (b : backend) (op : operation) (e : env) (db : database) :
  keys_unique db ->
  keys_unique (step b op e db)
  /\ loans_evolve (Loans db) (Loans (step b op e db)).
Proof.
  intros Hnd. destruct op as [req | id req | id | cid]; cbn [step].
  - destruct (create_loan_shape b req e db) as [Hsame | (row & Happ & Hfresh & _)].
    + unfold keys_unique. rewrite Hsame. split; [exact Hnd | apply loans_evolve_refl].
    + unfold keys_unique. rewrite Happ.
      split; [apply keys_unique_app; assumption | apply loans_evolve_app].
  - destruct (record_payment_shape b id req e db)
      as [Hsame | (loan & s & row & Hfind & Hst & Hset)].
    + rewrite Hsame. split; [exact Hnd | apply loans_evolve_refl].
    + rewrite Hset. split; [apply keys_unique_settled, Hnd |].
      apply (loans_evolve_settled db id s row loan); assumption.
  - rewrite get_ledger_pure. split; [exact Hnd | apply loans_evolve_refl].
  - rewrite get_overview_pure. split; [exact Hnd | apply loans_evolve_refl].
Qed.

Lemma run_cons (b : backend) (op : operation) (e : env)
  (trace : list (operation * env)) (db : database) :
  run b ((op, e) :: trace) db = run b trace (step b op e db).
Proof. reflexivity. Qed.

Lemma run_evolves (b : backend) (trace : list (operation * env)) (db : database) :
  keys_unique db ->
  keys_unique (run b trace db) /\ loans_evolve (Loans db) (Loans (run b trace db)).
Proof.
  revert db. induction trace as [| [op e] trace IH]; intros db Hnd.
  - split; [exact Hnd | apply loans_evolve_refl].
  - rewrite run_cons. destruct (step_evolves b op e db Hnd) as [Hnd' Hstep].
    destruct (IH _ Hnd') as [Hnd'' Hrest].
    split; [exact Hnd'' | exact (loans_evolve_trans _ _ _ Hstep Hrest)].
Qed.

Lemma reachable_keys_unique (b : backend) (db : database) :
  reachable b db -> keys_unique db.
Proof.
  intros [trace <-]. apply run_evolves. constructor.
Qed.

(** C7. In a state of the service, whatever requests follow: every loan row
    stays at its place in Loans with the same loan_id, customer_id,
    principal_amount, total_amount, interest_rate, loan_period_years,
    monthly_emi and created_at, and its status is either what it was or has
    gone from ACTIVE to PAID_OFF, never back; and the two reads, ledger and
    overview, leave the whole store as it is, whatever the payments sum to. *)
Theorem loans_only_settle (b : backend) (db : database)
  (trace : list (operation * env)) :
  reachable b db ->
  loans_evolve (Loans db) (Loans (run b trace db))
  /\ (forall (id : string) (e : env), step b (GetLedger id) e db = db)
  /\ (forall (cid : string) (e : env), step b (GetOverview cid) e db = db).
Proof.
  intros Hreach. split.
  - apply run_evolves, (reachable_keys_unique b), Hreach.
  - split; intros x e; cbn [step]; [apply get_ledger_pure | apply get_overview_pure].
Qed.

Lemma loans_only_settle_witness :
  loans_evolve (Loans (Scenario.opened SQLite)) (Loans (Scenario.overpaid SQLite))
  /\ step SQLite (GetLedger "loan-1") Scenario.env4 (Scenario.opened SQLite)
     = Scenario.opened SQLite.
Proof.
  destruct (loans_only_settle SQLite (Scenario.opened SQLite)
              [(RecordPayment "loan-1" (Scenario.pay 700 "EMI"), Scenario.env2);
               (RecordPayment "loan-1" (Scenario.pay 600 "LUMP_SUM"), Scenario.env3)])
    as (Hloans & Hledger & _).
  - exists [(CreateLoan Scenario.lend, Scenario.env1)]. reflexivity.
  - split; [exact Hloans | apply Hledger].
Defined.

(** ** The stored total and the recomputed one *)

Lemma step_totals (b : backend) (op : operation) (e : env) (db : database) :
  totals_consistent db -> totals_consistent (step b op e db).
Proof.
  intros Hinv. destruct op as [req | id req | id | cid]; cbn [step].
  - destruct (create_loan_shape b req e db)
      as [Hsame | (row & Happ & _ & _ & Htot & Hemi)];
      unfold totals_consistent.
    + rewrite Hsame. exact Hinv.
    + rewrite Happ. intros l Hin. apply in_app_or in Hin.
      destruct Hin as [Hin | [<- | []]]; [apply Hinv, Hin | split; assumption].
  - destruct (record_payment_shape b id req e db)
      as [Hsame | (loan & s & row & _ & _ & Hset)].
    + rewrite Hsame. exact Hinv.
    + rewrite Hset. intros l Hin. unfold settled in Hin; cbn [Loans] in Hin.
      apply in_map_iff in Hin. destruct Hin as (l0 & <- & Hin).
      destruct (String.eqb (loan_id l0) id); [| apply Hinv, Hin].
      destruct (Hinv l0 Hin) as [Htot Hemi]. split; assumption.
  - rewrite get_ledger_pure. exact Hinv.
  - rewrite get_overview_pure. exact Hinv.
Qed.

Lemma run_totals (b : backend) (trace : list (operation * env)) (db : database) :
  totals_consistent db -> totals_consistent (run b trace db).
Proof.
  revert db. induction trace as [| [op e] trace IH]; intros db Hinv;
    [exact Hinv | rewrite run_cons; apply IH, step_totals, Hinv].
Qed.

(** For the loans created from bodies whose numeric fields are numbers (the
    states of the service as modelled above), the total that payment
    recording recomputes from principal, period and rate is the stored
    total_amount. *)
Theorem recomputed_total_is_stored (b : backend) (db : database) (loan : loan_row) :
  reachable b db ->
  In loan (Loans db) ->
  originalTotalAmount loan = total_amount loan.
Proof.
  intros [trace <-] Hin. symmetry.
  apply (run_totals b trace empty_db); [intros l [] | exact Hin].
Qed.

Lemma recomputed_total_is_stored_witness :
  originalTotalAmount (mkLoan "loan-1" "cust-1" 1000 1200 10 2 50 ACTIVE 1) = 1200.
Proof.
  apply (recomputed_total_is_stored PostgreSQL (Scenario.part_paid PostgreSQL)
           (mkLoan "loan-1" "cust-1" 1000 1200 10 2 50 ACTIVE 1)).
  - exists [(CreateLoan Scenario.lend, Scenario.env1);
            (RecordPayment "loan-1" (Scenario.pay 700 "EMI"), Scenario.env2)].
    reflexivity.
  - left; reflexivity.
Defined.

(** ** More on numbers *)

(** A truthy number is above or below zero. *)
Lemma number_sign (a : number) :
  is_zero a = false -> is_nan a = false ->
  ((0 <? a) = true /\ (a <=? 0) = false /\ (a <? 0) = false)
  \/ ((a <? 0) = true /\ (a <=? 0) = true /\ (0 <? a) = false).
Proof.
  unfold is_zero, is_nan. change zero with 0.
  rewrite !FloatAxioms.ltb_spec, !FloatAxioms.leb_spec, !FloatAxioms.eqb_spec.
  rewrite Prim2SF_zero.
  destruct (Prim2SF a) as [[|] | [|] | | [|] m e]; unfold SFeqb, SFltb, SFleb;
    rewrite ?SFcompare_finite_refl; simpl; intros Hz Hn; try discriminate;
    auto.
Qed.

Lemma zero_over_positive (x : number) : (0 <? x) = true -> 0 / x = 0.
Proof.
  intros H. apply Prim2SF_inj. rewrite FloatAxioms.div_spec, Prim2SF_zero.
  rewrite FloatAxioms.ltb_spec, Prim2SF_zero in H.
  destruct (Prim2SF x) as [[|] | [|] | | [|] m e]; try discriminate H; reflexivity.
Qed.

(** What fails [x <= 0] is [NaN] or above zero. *)
Lemma not_le_zero (x : number) :
  (x <=? 0) = false -> x = nan \/ (0 <? x) = true.
Proof.
  intros H. rewrite FloatAxioms.leb_spec, Prim2SF_zero in H.
  rewrite FloatAxioms.ltb_spec, Prim2SF_zero.
  destruct (Prim2SF x) as [[|] | [|] | | [|] m e] eqn:E; try discriminate H; auto.
  left. apply Prim2SF_inj. rewrite E. reflexivity.
Qed.

Lemma lt_zero_le (x : number) : (x <? 0) = true -> (x <=? 0) = true.
Proof.
  rewrite FloatAxioms.leb_spec, FloatAxioms.ltb_spec, Prim2SF_zero.
  destruct (Prim2SF x) as [[|] | [|] | | [|] m e]; intros H; try discriminate H;
    reflexivity.
Qed.

(** [Math.max(0, .)] leaves the clamped balance as it is. *)
Lemma max_zero_clamped (x : number) :
  JS.Math_max 0 (if x <=? 0 then 0 else x) = (if x <=? 0 then 0 else x).
Proof.
  destruct (x <=? 0) eqn:E; [reflexivity |].
  destruct (not_le_zero x E) as [-> | H]; [reflexivity |].
  unfold JS.Math_max. destruct (positive_number x H) as (_ & Hn & _).
  rewrite Hn, H. reflexivity.
Qed.

(** The two guards of the payment body, in terms of the body. *)
Lemma payment_body_accepted (req : payment_request) :
  missing_payment_parameters req = false ->
  JS.le (req_amount req) 0 = false ->
  exists (a : number) (t : string),
    req = mkPaymentRequest (Some a) (Some t)
    /\ (0 <? a) = true /\ (t = "EMI"%string \/ t = "LUMP_SUM"%string).
Proof.
  destruct req as [[a |] [t |]]; unfold missing_payment_parameters, JS.le;
    cbn [req_amount req_payment_type JS.not_num JS.not_str JS.str JS.num];
    intros Hmiss Hle; try discriminate Hmiss;
    try (rewrite orb_true_r in Hmiss; discriminate Hmiss).
  apply orb_false_iff in Hmiss. destruct Hmiss as [Hmiss Hknown].
  apply orb_false_iff in Hmiss. destruct Hmiss as [Hnum _].
  apply orb_false_iff in Hnum. destruct Hnum as [Hz Hn].
  exists a, t. split; [reflexivity |]. split.
  - destruct (number_sign a Hz Hn) as [(H & _) | (_ & H & _)];
      [exact H | congruence].
  - apply negb_false_iff in Hknown. unfold known_type in Hknown.
    apply orb_true_iff in Hknown.
    destruct Hknown as [H | H]; apply String.eqb_eq in H; auto.
Qed.

(** The two guards of the loan body, in terms of the body. *)
Lemma loan_body_accepted (req : loan_request) :
  missing_loan_parameters req = false ->
  invalid_loan_parameters req = false ->
  exists (cid : string) (P Y R : number),
    req = mkLoanRequest (Some cid) (Some P) (Some Y) (Some R)
    /\ cid <> EmptyString
    /\ (0 <? P) = true /\ (0 <? Y) = true /\ (0 <? R) = true.
Proof.
  destruct req as [[cid |] [P |] [Y |] [R |]];
    unfold missing_loan_parameters, invalid_loan_parameters, JS.le, JS.lt;
    cbn [req_customer_id req_loan_amount req_loan_period_years
         req_interest_rate_yearly JS.not_num JS.not_str JS.num];
    intros Hmiss Hinv; try discriminate Hmiss;
    try (rewrite ?orb_true_r in Hmiss; discriminate Hmiss).
  apply orb_false_iff in Hmiss. destruct Hmiss as [Hmiss HR].
  apply orb_false_iff in Hmiss. destruct Hmiss as [Hmiss HY].
  apply orb_false_iff in Hmiss. destruct Hmiss as [Hc HP].
  apply orb_false_iff in HP. destruct HP as [Pz Pn].
  apply orb_false_iff in HY. destruct HY as [Yz Yn].
  apply orb_false_iff in HR. destruct HR as [Rz Rn].
  apply orb_false_iff in Hinv. destruct Hinv as [Hinv Rlt].
  apply orb_false_iff in Hinv. destruct Hinv as [Ple Yle].
  exists cid, P, Y, R. split; [reflexivity |].
  split; [apply String.eqb_neq; exact Hc |].
  destruct (number_sign P Pz Pn) as [(HP & _) | (_ & HP & _)]; [| congruence].
  destruct (number_sign Y Yz Yn) as [(HY & _) | (_ & HY & _)]; [| congruence].
  destruct (number_sign R Rz Rn) as [(HR & _) | (HR & _)]; [| congruence].
  repeat split; assumption.
Qed.

(** ** What one request writes *)

(** Case analysis on the next answer of the store in the goal. *)
Ltac case_store :=
  match goal with
  | |- context [match fault ?e ?s with _ => _ end] => destruct (fault e s) eqn:?
  | |- context [match find_loan ?i ?d with _ => _ end] =>
      destruct (find_loan i d) eqn:?
  | |- context [match find_customer ?i ?d with _ => _ end] =>
      destruct (find_customer i d) eqn:?
  | |- context [match status ?l with _ => _ end] => destruct (status l) eqn:?
  | |- context [if existsb ?f ?l then _ else _] => destruct (existsb f l) eqn:?
  end.

Lemma db_eta (db : database) :
  db = mkDb (Customers db ++ []) (Loans db ++ []) (Payments db).
Proof. destruct db; cbn. rewrite !app_nil_r. reflexivity. Qed.

Lemma find_loan_id (id : string) (db : database) (loan : loan_row) :
  find_loan id db = Some loan -> loan_id loan = id.
Proof.
  unfold find_loan. intros H. apply find_some in H.
  destruct H as [_ H]. apply String.eqb_eq, H.
Qed.

(** A payment request either fails and writes nothing, or finds the loan
    ACTIVE and writes the payment row and the status its balance calls for. *)
Lemma record_payment_effect (b : backend) (id : string) (req : payment_request)
  (e : env) (db : database) :
  (is_failure (snd (record_payment b id req e db)) = true
   /\ fst (record_payment b id req e db) = db)
  \/ exists (loan : loan_row) (a : number) (t : string),
       req = mkPaymentRequest (Some a) (Some t)
       /\ (0 <? a) = true
       /\ (t = "EMI"%string \/ t = "LUMP_SUM"%string)
       /\ find_loan id db = Some loan
       /\ status loan = ACTIVE
       /\ existsb (fun p => String.eqb (payment_id p) (uuid e)) (Payments db) = false
       /\ record_payment b id req e db
          = (settled db id (status_after (balance_after db loan a))
               (new_payment id a t e),
             Success 200
               (mkPaymentRecorded (uuid e) id
                  ("Payment recorded successfully. Loan status: "
                   ++ status_text (status_after (balance_after db loan a)))%string
                  (if balance_after db loan a <=? 0 then 0
                   else balance_after db loan a)
                  (if 0 <? monthly_emi loan
                   then JS.Math_ceil
                          ((if balance_after db loan a <=? 0 then 0
                            else balance_after db loan a) / monthly_emi loan)
                   else 0))).
Proof.
  destruct (is_failure (snd (record_payment b id req e db))) eqn:Hf.
  - left. split; [reflexivity | apply failed_payment_unchanged, Hf].
  - right.
    assert (Hmiss : missing_payment_parameters req = false).
    { destruct (missing_payment_parameters req) eqn:E; [| reflexivity].
      revert Hf.
      destruct b; unfold record_payment, Sqlite.record_payment, Pg.record_payment;
        rewrite E; discriminate. }
    assert (Hle : JS.le (req_amount req) 0 = false).
    { destruct (JS.le (req_amount req) 0) eqn:E; [| reflexivity].
      revert Hf.
      destruct b; unfold record_payment, Sqlite.record_payment, Pg.record_payment;
        rewrite Hmiss, E; discriminate. }
    destruct (payment_body_accepted req Hmiss Hle) as (a & t & -> & Ha & Ht).
    revert Hf.
    destruct b; unfold record_payment, Sqlite.record_payment, Pg.record_payment;
      rewrite Hmiss, Hle; cbv zeta; cbn [cur exec_begin idle saved];
      unfold on_cur, insert_payment, update_status;
      cbn [cur saved payment_id req_amount req_payment_type JS.num JS.str];
      repeat (case_store; cbn [fst snd is_failure cur saved exec_commit]);
      intros Hf; try discriminate Hf;
      match goal with
      | H : find_loan id db = Some ?l |- _ =>
          exists l, a, t; pose proof (find_loan_id id db l H) as Hid
      end;
      (repeat (split; [assumption || reflexivity |]));
      unfold balance_after, status_after, new_payment, settled;
      rewrite Hid; cbn [cur Customers Loans Payments];
      unfold JS.gt, JS.parseFloat, Pg.reduce_amounts, JS.parseFloat;
      rewrite ?max_zero_clamped;
      try reflexivity;
      destruct (String.eqb t "LUMP_SUM"); destruct (0 <? monthly_emi l);
      reflexivity.
Qed.

Ltac loan_effect_case :=
  split; [first [apply db_eta | cbn; rewrite ?app_nil_r; reflexivity] |];
  split; [first [left; reflexivity
                | right; split; [reflexivity | assumption || reflexivity]] |];
  first [ left; split; reflexivity
        | right; repeat split; try assumption; try reflexivity;
          intros; congruence ].

(** A loan request writes at most the placeholder customer and, when it is
    answered 201, the loan row. *)
Lemma create_loan_effect (b : backend) (req : loan_request) (e : env)
  (db : database) :
  exists (cs : list customer_row) (ls : list loan_row),
    fst (create_loan b req e db)
    = mkDb (Customers db ++ cs) (Loans db ++ ls) (Payments db)
    /\ (cs = []
        \/ (cs = [placeholder (JS.str (req_customer_id req)) e]
            /\ find_customer (JS.str (req_customer_id req)) db = None))
    /\ ((ls = [] /\ is_failure (snd (create_loan b req e db)) = true)
        \/ (ls = [new_loan req e]
            /\ snd (create_loan b req e db)
               = Success 201
                   (mkLoanCreated (uuid e) (JS.str (req_customer_id req))
                      (total_amount (new_loan req e)) (monthly_emi (new_loan req e))
                      (interest
                         (calculateLoanDetails (JS.num (req_loan_amount req))
                            (JS.num (req_loan_period_years req))
                            (JS.num (req_interest_rate_yearly req)))))
            /\ missing_loan_parameters req = false
            /\ invalid_loan_parameters req = false
            /\ existsb (fun l => String.eqb (loan_id l) (uuid e)) (Loans db) = false
            /\ (b = PostgreSQL -> cs = [] ->
                find_customer (JS.str (req_customer_id req)) db <> None))).
Proof.
  destruct (missing_loan_parameters req) eqn:Hmiss;
    [| destruct (invalid_loan_parameters req) eqn:Hinv];
    destruct b; unfold create_loan, Sqlite.create_loan, Pg.create_loan;
    rewrite ?Hmiss, ?Hinv; cbv zeta; unfold insert_loan, insert_customer;
    cbn [loan_id cust_customer_id];
    repeat (case_store; cbn [fst snd Customers Loans Payments loan_id]);
    first
      [ exists [], []; solve [loan_effect_case]
      | exists [placeholder (JS.str (req_customer_id req)) e], [];
        solve [loan_effect_case]
      | exists [], [new_loan req e]; solve [loan_effect_case]
      | exists [placeholder (JS.str (req_customer_id req)) e], [new_loan req e];
        solve [loan_effect_case] ].
Qed.

(** ** Lookups in a grown or relabelled relation *)

Lemma find_app_some {A : Type} (f : A -> bool) (l l' : list A) (x : A) :
  find f l = Some x -> find f (l ++ l') = Some x.
Proof.
  induction l as [| y l IH]; simpl; [discriminate |].
  destruct (f y); [intros H; exact H | exact IH].
Qed.

Lemma find_app_none {A : Type} (f : A -> bool) (l l' : list A) :
  find f l = None -> find f (l ++ l') = find f l'.
Proof.
  induction l as [| y l IH]; simpl; [reflexivity |].
  destruct (f y); [discriminate | exact IH].
Qed.

Lemma existsb_false_find {A : Type} (f : A -> bool) (l : list A) :
  existsb f l = false -> find f l = None.
Proof.
  induction l as [| y l IH]; simpl; [reflexivity |].
  destruct (f y); [discriminate | exact IH].
Qed.

Lemma find_none_existsb {A : Type} (f : A -> bool) (l : list A) :
  find f l = None -> existsb f l = false.
Proof.
  induction l as [| y l IH]; simpl; [reflexivity |].
  destruct (f y); [discriminate | exact IH].
Qed.

(** A row of a new key keeps a key column free of repeats. *)
Lemma NoDup_key_app {A : Type} (key : A -> string) (l : list A) (x : A) :
  NoDup (map key l) ->
  existsb (fun y => String.eqb (key y) (key x)) l = false ->
  NoDup (map key (l ++ [x])).
Proof.
  intros Hnd Hfresh. rewrite map_app; simpl.
  apply NoDup_app; [exact Hnd | repeat constructor; auto |].
  intros k Hin [<- | []].
  apply in_map_iff in Hin. destruct Hin as (y & Hk & Hin).
  assert (Hex : existsb (fun y => String.eqb (key y) (key x)) l = true).
  { apply existsb_exists. exists y. split; [exact Hin |].
    rewrite Hk. apply String.eqb_refl. }
  congruence.
Qed.

(** Setting a status moves no row and changes no key. *)
Lemma find_loan_relabel (k id : string) (s : loan_status) (ls : list loan_row) :
  find (fun l => String.eqb (loan_id l) k)
    (map (fun l => if String.eqb (loan_id l) id then set_status s l else l) ls)
  = option_map (fun l => if String.eqb (loan_id l) id then set_status s l else l)
      (find (fun l => String.eqb (loan_id l) k) ls).
Proof.
  induction ls as [| l ls IH]; simpl; [reflexivity |].
  assert (Hk : loan_id (if String.eqb (loan_id l) id then set_status s l else l)
               = loan_id l)
    by (destruct (String.eqb (loan_id l) id); reflexivity).
  rewrite Hk. destruct (String.eqb (loan_id l) k); [reflexivity | exact IH].
Qed.

Lemma payments_of_settled (db : database) (id k : string) (s : loan_status)
  (row : payment_row) :
  payments_of k (settled db id s row)
  = (payments_of k db
     ++ (if String.eqb (pay_loan_id row) k then [row] else []))%list.
Proof.
  unfold payments_of, settled; cbn [Payments].
  rewrite filter_app. reflexivity.
Qed.

Lemma in_loans_find (db : database) (l : loan_row) :
  keys_unique db -> In l (Loans db) -> find_loan (loan_id l) db = Some l.
Proof.
  intros Hnd Hin. unfold find_loan.
  destruct (find (fun r => String.eqb (loan_id r) (loan_id l)) (Loans db))
    as [r |] eqn:E.
  - f_equal. symmetry.
    apply (find_by_key (loan_id l) (Loans db) r l Hnd E Hin eq_refl).
  - apply find_none with (x := l) in E; [| exact Hin].
    rewrite String.eqb_refl in E. discriminate E.
Qed.

(** ** The stored rows stay well formed *)

Lemma well_formed_empty : well_formed empty_db.
Proof.
  unfold well_formed, keys_unique, payments_reference_loans; cbn.
  repeat split; try constructor; intros ? [].
Qed.

Lemma well_formed_grow (db : database) (cs : list customer_row)
  (ls : list loan_row) (c : customer_row) (row : loan_row) :
  well_formed db ->
  cs = [] \/ (cs = [c] /\ find_customer (cust_customer_id c) db = None) ->
  ls = []
  \/ (ls = [row]
      /\ existsb (fun l => String.eqb (loan_id l) (loan_id row)) (Loans db) = false
      /\ sound_loan row /\ status row = ACTIVE) ->
  well_formed (mkDb (Customers db ++ cs) (Loans db ++ ls) (Payments db)).
Proof.
  intros (Hk & Hp & Hc & Href & Hsl & Hsp & Hst) Hcs Hls.
  unfold well_formed, keys_unique; cbn [Customers Loans Payments].
  split; [| split; [exact Hp | split; [| split; [| split; [| split]]]]].
  - destruct Hls as [-> | (-> & Hfresh & _)];
      [rewrite app_nil_r; exact Hk | apply NoDup_key_app; assumption].
  - destruct Hcs as [-> | (-> & Hnone)]; [rewrite app_nil_r; exact Hc |].
    apply NoDup_key_app; [exact Hc |].
    apply find_none_existsb. exact Hnone.
  - intros p Hin. specialize (Href p Hin). unfold find_loan in *; cbn [Loans].
    destruct (find (fun l => String.eqb (loan_id l) (pay_loan_id p)) (Loans db))
      as [l |] eqn:E; [| congruence].
    rewrite (find_app_some _ _ _ _ E). discriminate.
  - apply Forall_app. split; [exact Hsl |].
    destruct Hls as [-> | (-> & _ & Hs & _)];
      [constructor | constructor; [exact Hs | constructor]].
  - exact Hsp.
  - intros l Hin. apply in_app_or in Hin. destruct Hin as [Hin | Hin].
    + exact (Hst l Hin).
    + destruct Hls as [-> | (-> & Hfresh & _ & Hact)]; [destruct Hin |].
      destruct Hin as [<- | []].
      unfold last_payment_settles. rewrite Hact. intros prior p Heq.
      exfalso.
      assert (Hin : In p (payments_of (loan_id row) db))
        by (change (payments_of (loan_id row) db)
              with (payments_of (loan_id row)
                      (mkDb (Customers db ++ cs) (Loans db ++ [row]) (Payments db)));
            rewrite Heq; apply in_or_app; right; left; reflexivity).
      unfold payments_of in Hin. apply filter_In in Hin. destruct Hin as [Hin Hid].
      apply String.eqb_eq in Hid. apply (Href p Hin).
      rewrite Hid. apply existsb_false_find, Hfresh.
Qed.

Lemma sound_loan_new (req : loan_request) (e : env) :
  missing_loan_parameters req = false ->
  invalid_loan_parameters req = false ->
  sound_loan (new_loan req e).
Proof.
  intros Hmiss Hinv.
  destruct (loan_body_accepted req Hmiss Hinv)
    as (cid & P & Y & R & -> & _ & HP & HY & HR).
  unfold sound_loan, new_loan; cbn. repeat split; assumption.
Qed.

Lemma well_formed_settled (db : database) (id : string) (loan : loan_row)
  (a : number) (t : string) (e : env) :
  well_formed db ->
  find_loan id db = Some loan ->
  status loan = ACTIVE ->
  existsb (fun p => String.eqb (payment_id p) (uuid e)) (Payments db) = false ->
  (0 <? a) = true ->
  t = "EMI"%string \/ t = "LUMP_SUM"%string ->
  well_formed
    (settled db id (status_after (balance_after db loan a)) (new_payment id a t e)).
Proof.
  intros (Hk & Hp & Hc & Href & Hsl & Hsp & Hst) Hfind Hact Hfresh Ha Ht.
  pose proof (find_loan_id id db loan Hfind) as Hid.
  set (s := status_after (balance_after db loan a)).
  set (row := new_payment id a t e).
  unfold well_formed.
  split; [apply keys_unique_settled, Hk |].
  split; [unfold settled; cbn [Payments]; apply NoDup_key_app; assumption |].
  split; [exact Hc |].
  split; [| split; [| split]].
  - intros p Hin. unfold settled in Hin; cbn [Payments] in Hin.
    unfold find_loan, settled; cbn [Loans]. rewrite find_loan_relabel.
    apply in_app_or in Hin. destruct Hin as [Hin | [<- | []]].
    + specialize (Href p Hin). unfold find_loan in Href.
      destruct (find (fun l => String.eqb (loan_id l) (pay_loan_id p)) (Loans db));
        [discriminate | congruence].
    + cbn [row new_payment pay_loan_id]. unfold find_loan in Hfind.
      rewrite Hfind. discriminate.
  - unfold settled; cbn [Loans]. apply Forall_map.
    eapply Forall_impl; [| exact Hsl].
    intros l Hl. destruct (String.eqb (loan_id l) id); exact Hl.
  - unfold settled; cbn [Payments]. apply Forall_app. split; [exact Hsp |].
    constructor; [split; assumption | constructor].
  - intros l' Hin. unfold settled in Hin; cbn [Loans] in Hin.
    apply in_map_iff in Hin. destruct Hin as (l & <- & Hin).
    unfold last_payment_settles. rewrite payments_of_settled.
    cbn [row new_payment pay_loan_id].
    destruct (String.eqb (loan_id l) id) eqn:E.
    + apply String.eqb_eq in E.
      assert (l = loan) as ->
          by (apply (find_by_key id (Loans db)); auto).
      cbn [loan_id set_status status]. rewrite Hid, String.eqb_refl.
      change (originalTotalAmount (set_status s loan))
        with (originalTotalAmount loan).
      unfold s, status_after.
      destruct (balance_after db loan a <=? 0) eqn:Hb.
      * exists (payments_of id db), (new_payment id a t e).
        split; [reflexivity |]. unfold balance_after in Hb.
        rewrite Hid in Hb. exact Hb.
      * intros prior p Heq. apply app_inj_tail in Heq.
        destruct Heq as [<- <-]. unfold balance_after in Hb.
        rewrite Hid in Hb. exact Hb.
    + rewrite String.eqb_sym, E, app_nil_r. exact (Hst l Hin).
Qed.

Lemma step_well_formed (b : backend) (op : operation) (e : env) (db : database) :
  well_formed db -> well_formed (step b op e db).
Proof.
  intros Hwf. destruct op as [req | id req | id | cid]; cbn [step].
  - destruct (create_loan_effect b req e db) as (cs & ls & -> & Hcs & Hls).
    apply (well_formed_grow db cs ls
             (placeholder (JS.str (req_customer_id req)) e) (new_loan req e) Hwf).
    + destruct Hcs as [-> | [-> Hnone]]; [left; reflexivity | right; auto].
    + destruct Hls as [[-> _] | (-> & _ & Hmiss & Hinv & Hfresh & _)];
        [left; reflexivity | right].
      split; [reflexivity |].
      split; [exact Hfresh |].
      split; [apply (sound_loan_new req e Hmiss Hinv) | reflexivity].
  - destruct (record_payment_effect b id req e db)
      as [[_ ->] | (loan & a & t & _ & Ha & Ht & Hfind & Hact & Hfresh & ->)];
      [exact Hwf | cbn [fst]].
    apply well_formed_settled; assumption.
  - rewrite get_ledger_pure. exact Hwf.
  - rewrite get_overview_pure. exact Hwf.
Qed.

Lemma run_well_formed (b : backend) (trace : list (operation * env))
  (db : database) :
  well_formed db -> well_formed (run b trace db).
Proof.
  revert db. induction trace as [| [op e] trace IH]; intros db Hwf;
    [exact Hwf | rewrite run_cons; apply IH, step_well_formed, Hwf].
Qed.

Lemma reachable_well_formed (b : backend) (db : database) :
  reachable b db -> well_formed db.
Proof. intros [trace <-]. apply run_well_formed, well_formed_empty. Qed.

(** ** Invariants of the states of the service *)

(** X1. In every state of the service the primary keys hold: no two Loans
    rows share a loan_id, no two Payments rows a payment_id, no two
    Customers rows a customer_id, whatever identifiers [uuidv4()] returned. *)
Theorem primary_keys_hold (b : backend) (db : database) :
  reachable b db ->
  NoDup (map loan_id (Loans db))
  /\ NoDup (map payment_id (Payments db))
  /\ NoDup (map cust_customer_id (Customers db)).
Proof.
  intros H. destruct (reachable_well_formed b db H) as (H1 & H2 & H3 & _).
  repeat split; assumption.
Qed.

Lemma primary_keys_hold_witness :
  NoDup (map payment_id (Payments (Scenario.overpaid PostgreSQL))).
Proof.
  apply (primary_keys_hold PostgreSQL (Scenario.overpaid PostgreSQL)).
  exists [(CreateLoan Scenario.lend, Scenario.env1);
          (RecordPayment "loan-1" (Scenario.pay 700 "EMI"), Scenario.env2);
          (RecordPayment "loan-1" (Scenario.pay 600 "LUMP_SUM"), Scenario.env3)].
  reflexivity.
Defined.

(** X2. In every state of the service each Payments row belongs to a loan
    that is in Loans: a payment is written only after its loan was found,
    and loans are never removed. *)
Theorem payments_belong_to_loans (b : backend) (db : database) (p : payment_row) :
  reachable b db ->
  In p (Payments db) ->
  exists loan : loan_row,
    find_loan (pay_loan_id p) db = Some loan /\ In loan (Loans db).
Proof.
  intros H Hin.
  destruct (reachable_well_formed b db H) as (_ & _ & _ & Href & _).
  specialize (Href p Hin).
  destruct (find_loan (pay_loan_id p) db) as [loan |] eqn:E; [| congruence].
  exists loan. split; [reflexivity |].
  unfold find_loan in E. apply find_some in E. apply E.
Qed.

Lemma payments_belong_to_loans_witness :
  exists loan : loan_row,
    find_loan "loan-1" (Scenario.part_paid SQLite) = Some loan
    /\ In loan (Loans (Scenario.part_paid SQLite)).
Proof.
  apply (payments_belong_to_loans SQLite (Scenario.part_paid SQLite)
           (mkPayment "pay-1" "loan-1" 700 "EMI" 2)).
  - exists [(CreateLoan Scenario.lend, Scenario.env1);
            (RecordPayment "loan-1" (Scenario.pay 700 "EMI"), Scenario.env2)].
    reflexivity.
  - left; reflexivity.
Defined.

(** X4. Every payment stored by the service has the type EMI or
    LUMP_SUM: a body with any other type is refused before the insert. *)
Theorem stored_payment_types (b : backend) (db : database) (p : payment_row) :
  reachable b db ->
  In p (Payments db) ->
  payment_type p = "EMI"%string \/ payment_type p = "LUMP_SUM"%string.
Proof.
  intros H Hin.
  destruct (reachable_well_formed b db H) as (_ & _ & _ & _ & _ & Hsp & _).
  rewrite Forall_forall in Hsp. exact (proj2 (Hsp p Hin)).
Qed.

Lemma stored_payment_types_witness :
  ("LUMP_SUM" = "EMI" \/ "LUMP_SUM" = "LUMP_SUM")%string.
Proof.
  apply (stored_payment_types PostgreSQL (Scenario.overpaid PostgreSQL)
           (mkPayment "pay-2" "loan-1" 600 "LUMP_SUM" 3)).
  - exists [(CreateLoan Scenario.lend, Scenario.env1);
            (RecordPayment "loan-1" (Scenario.pay 700 "EMI"), Scenario.env2);
            (RecordPayment "loan-1" (Scenario.pay 600 "LUMP_SUM"), Scenario.env3)].
    reflexivity.
  - right; left; reflexivity.
Defined.

(** X5. In every state of the service the status of a loan is the verdict
    of its last payment: a PAID_OFF loan has a last payment that brought
    total - (earlier payments) - amount to zero or below, and an ACTIVE loan
    has no payment or a last payment that did not. *)
Theorem status_follows_last_payment (b : backend) (db : database) (l : loan_row) :
  reachable b db ->
  In l (Loans db) ->
  match status l with
  | PAID_OFF =>
      exists (prior : list payment_row) (p : payment_row),
        payments_of (loan_id l) db = (prior ++ [p])%list
        /\ (originalTotalAmount l - sum_amounts prior - amount p <=? 0) = true
  | ACTIVE =>
      forall (prior : list payment_row) (p : payment_row),
        payments_of (loan_id l) db = (prior ++ [p])%list ->
        (originalTotalAmount l - sum_amounts prior - amount p <=? 0) = false
  end.
Proof.
  intros H Hin.
  destruct (reachable_well_formed b db H) as (_ & _ & _ & _ & _ & _ & Hst).
  exact (Hst l Hin).
Qed.

Lemma status_follows_last_payment_witness :
  exists (prior : list payment_row) (p : payment_row),
    payments_of "loan-1" (Scenario.overpaid SQLite) = (prior ++ [p])%list
    /\ (1200 - sum_amounts prior - amount p <=? 0) = true.
Proof.
  apply (status_follows_last_payment SQLite (Scenario.overpaid SQLite)
           (mkLoan "loan-1" "cust-1" 1000 1200 10 2 50 PAID_OFF 1)).
  - exists [(CreateLoan Scenario.lend, Scenario.env1);
            (RecordPayment "loan-1" (Scenario.pay 700 "EMI"), Scenario.env2);
            (RecordPayment "loan-1" (Scenario.pay 600 "LUMP_SUM"), Scenario.env3)].
    reflexivity.
  - left; reflexivity.
Defined.

Lemma step_pg_customers (op : operation) (e : env) (db : database) :
  loans_reference_customers db ->
  loans_reference_customers (step PostgreSQL op e db).
Proof.
  intros Hinv. destruct op as [req | id req | id | cid]; cbn [step].
  - destruct (create_loan_effect PostgreSQL req e db)
      as (cs & ls & -> & Hcs & Hls).
    intros l Hin; cbn [Loans] in Hin. unfold find_customer; cbn [Customers].
    apply in_app_or in Hin. destruct Hin as [Hin | Hin].
    + specialize (Hinv l Hin). unfold find_customer in Hinv.
      destruct (find (fun c => String.eqb (cust_customer_id c) (customer_id l))
                  (Customers db)) as [c |] eqn:E; [| congruence].
      rewrite (find_app_some _ _ _ _ E). discriminate.
    + destruct Hls as [[-> _] | (-> & _ & _ & _ & _ & Hpg)]; [destruct Hin |].
      destruct Hin as [<- | []]. cbn [new_loan customer_id].
      destruct Hcs as [-> | [-> Hnone]].
      * rewrite app_nil_r. exact (Hpg eq_refl eq_refl).
      * unfold find_customer in Hnone. rewrite (find_app_none _ _ _ Hnone).
        cbn. rewrite String.eqb_refl. discriminate.
  - destruct (record_payment_effect PostgreSQL id req e db)
      as [[_ ->] | (loan & a & t & _ & _ & _ & _ & _ & _ & ->)];
      [exact Hinv | cbn [fst]].
    intros l' Hin. unfold settled in Hin; cbn [Loans] in Hin.
    apply in_map_iff in Hin. destruct Hin as (l & <- & Hin).
    specialize (Hinv l Hin).
    destruct (String.eqb (loan_id l) id); exact Hinv.
  - rewrite get_ledger_pure. exact Hinv.
  - rewrite get_overview_pure. exact Hinv.
Qed.

Lemma run_pg_customers (trace : list (operation * env)) (db : database) :
  loans_reference_customers db ->
  loans_reference_customers (run PostgreSQL trace db).
Proof.
  revert db. induction trace as [| [op e] trace IH]; intros db Hinv;
    [exact Hinv | rewrite run_cons; apply IH, step_pg_customers, Hinv].
Qed.

(** X6. In every state of the PostgreSQL variant each loan belongs to a
    customer that is in Customers: there, a loan is inserted only after its
    customer was found or provisioned. *)
Theorem pg_loans_belong_to_customers (db : database) (l : loan_row) :
  reachable PostgreSQL db ->
  In l (Loans db) ->
  exists c : customer_row, find_customer (customer_id l) db = Some c.
Proof.
  intros [trace <-] Hin.
  assert (H : loans_reference_customers (run PostgreSQL trace empty_db))
    by (apply run_pg_customers; intros r []).
  specialize (H l Hin).
  destruct (find_customer (customer_id l) (run PostgreSQL trace empty_db)) as [c |];
    [exists c; reflexivity | congruence].
Qed.

Lemma pg_loans_belong_to_customers_witness :
  exists c : customer_row,
    find_customer "cust-1" (Scenario.opened PostgreSQL) = Some c.
Proof.
  apply (pg_loans_belong_to_customers (Scenario.opened PostgreSQL)
           (mkLoan "loan-1" "cust-1" 1000 1200 10 2 50 ACTIVE 1)).
  - exists [(CreateLoan Scenario.lend, Scenario.env1)]. reflexivity.
  - left; reflexivity.
Defined.

(** X7. When provisioning an unknown customer fails (body valid, the other
    statements served, the loan id unused), the SQLite variant still inserts
    the loan and answers 201, leaving Customers without the loan's customer,
    while the PostgreSQL variant answers 500 "Error creating loan." and
    writes nothing. *)
Theorem provisioning_failure (req : loan_request) (e : env) (db : database)
  (err : string) :
  missing_loan_parameters req = false ->
  invalid_loan_parameters req = false ->
  fault e SelectCustomer = None ->
  find_customer (JS.str (req_customer_id req)) db = None ->
  fault e InsertCustomer = Some err ->
  fault e InsertLoan = None ->
  existsb (fun l => String.eqb (loan_id l) (uuid e)) (Loans db) = false ->
  (exists body : loan_created,
      create_loan SQLite req e db
      = (mkDb (Customers db) (Loans db ++ [new_loan req e]) (Payments db),
         Success 201 body)
      /\ find_customer (customer_id (new_loan req e))
           (fst (create_loan SQLite req e db)) = None)
  /\ create_loan PostgreSQL req e db
     = (db, Failure 500 "Error creating loan." (Some err)).
Proof.
  intros Hmiss Hinv Hsel Hnone Hins Hloan Hfresh.
  unfold create_loan, Sqlite.create_loan, Pg.create_loan.
  rewrite Hmiss, Hinv; cbv zeta. rewrite Hsel, Hnone.
  unfold insert_customer, insert_loan. rewrite Hins, Hloan.
  cbn [loan_id Loans]. rewrite Hfresh.
  split; [| reflexivity].
  eexists. split; [reflexivity |]. exact Hnone.
Qed.

Lemma provisioning_failure_witness :
  (exists body : loan_created,
      create_loan SQLite Scenario.lend Scenario.customer_insert_fails empty_db
      = (mkDb [] [mkLoan "loan-1" "cust-1" 1000 1200 10 2 50 ACTIVE 1] [],
         Success 201 body))
  /\ create_loan PostgreSQL Scenario.lend Scenario.customer_insert_fails empty_db
     = (empty_db, Failure 500 "Error creating loan." (Some "disk I/O error"%string)).
Proof.
  destruct (provisioning_failure Scenario.lend Scenario.customer_insert_fails
              empty_db "disk I/O error")
    as [(body & Hrun & _) Hpg]; try reflexivity.
  split; [exists body; exact Hrun | exact Hpg].
Defined.

(** ** Rows are only ever added *)

Lemma step_appends (b : backend) (op : operation) (e : env) (db : database) :
  exists (cs : list customer_row) (ps : list payment_row),
    Customers (step b op e db) = (Customers db ++ cs)%list
    /\ Payments (step b op e db) = (Payments db ++ ps)%list.
Proof.
  destruct op as [req | id req | id | cid]; cbn [step].
  - destruct (create_loan_effect b req e db) as (cs & ls & -> & _).
    exists cs, []. cbn. rewrite app_nil_r. split; reflexivity.
  - destruct (record_payment_effect b id req e db)
      as [[_ ->] | (loan & a & t & _ & _ & _ & _ & _ & _ & ->)].
    + exists [], []. rewrite !app_nil_r. split; reflexivity.
    + exists [], [new_payment id a t e]. cbn. rewrite app_nil_r.
      split; reflexivity.
  - rewrite get_ledger_pure. exists [], []. rewrite !app_nil_r. split; reflexivity.
  - rewrite get_overview_pure. exists [], []. rewrite !app_nil_r. split; reflexivity.
Qed.

(** X8. Customers and Payments are append-only: after any sequence of
    requests, from any store, the Customers and Payments relations are the
    old ones followed by the rows added; no row is removed, changed or
    moved. *)
Theorem customers_and_payments_append_only (b : backend)
  (trace : list (operation * env)) (db : database) :
  exists (cs : list customer_row) (ps : list payment_row),
    Customers (run b trace db) = (Customers db ++ cs)%list
    /\ Payments (run b trace db) = (Payments db ++ ps)%list.
Proof.
  revert db. induction trace as [| [op e] trace IH]; intros db.
  - exists [], []. rewrite !app_nil_r. split; reflexivity.
  - rewrite run_cons.
    destruct (step_appends b op e db) as (cs1 & ps1 & Hc1 & Hp1).
    destruct (IH (step b op e db)) as (cs2 & ps2 & Hc2 & Hp2).
    exists (cs1 ++ cs2)%list, (ps1 ++ ps2)%list.
    rewrite Hc2, Hp2, Hc1, Hp1, !app_assoc. split; reflexivity.
Qed.

(** ** A paid-off loan is closed *)

Lemma step_keeps_paid_off (b : backend) (op : operation) (e : env)
  (db : database) (id : string) (l : loan_row) :
  find_loan id db = Some l -> status l = PAID_OFF ->
  find_loan id (step b op e db) = Some l
  /\ payments_of id (step b op e db) = payments_of id db.
Proof.
  intros Hfind Hpaid. destruct op as [req | id' req | id' | cid]; cbn [step].
  - destruct (create_loan_effect b req e db) as (cs & ls & -> & _).
    split; [| reflexivity].
    unfold find_loan in *; cbn [Loans]. apply find_app_some, Hfind.
  - destruct (record_payment_effect b id' req e db)
      as [[_ ->] | (loan & a & t & _ & _ & _ & Hfind' & Hact & _ & ->)];
      [split; [exact Hfind | reflexivity] | cbn [fst]].
    assert (Hne : String.eqb id' id = false).
    { destruct (String.eqb id' id) eqn:E; [| reflexivity].
      apply String.eqb_eq in E. subst id'. congruence. }
    split.
    + unfold find_loan, settled; cbn [Loans]. rewrite find_loan_relabel.
      unfold find_loan in Hfind. rewrite Hfind. cbn [option_map].
      rewrite (find_loan_id id db l Hfind), String.eqb_sym, Hne. reflexivity.
    + rewrite payments_of_settled. cbn [new_payment pay_loan_id].
      rewrite Hne. apply app_nil_r.
  - rewrite get_ledger_pure. split; [exact Hfind | reflexivity].
  - rewrite get_overview_pure. split; [exact Hfind | reflexivity].
Qed.

(** X9. A loan that is PAID_OFF stays exactly as it is and receives no
    further payment: after any sequence of requests its Loans row is the
    same row and the payments recorded against it are the same rows. *)
Theorem paid_off_is_final (b : backend) (trace : list (operation * env))
  (db : database) (id : string) (l : loan_row) :
  find_loan id db = Some l ->
  status l = PAID_OFF ->
  find_loan id (run b trace db) = Some l
  /\ payments_of id (run b trace db) = payments_of id db.
Proof.
  revert db. induction trace as [| [op e] trace IH]; intros db Hfind Hpaid.
  - split; [exact Hfind | reflexivity].
  - rewrite run_cons.
    destruct (step_keeps_paid_off b op e db id l Hfind Hpaid) as [Hf Hp].
    destruct (IH _ Hf Hpaid) as [Hf' Hp'].
    split; [exact Hf' | rewrite Hp'; exact Hp].
Qed.

Lemma paid_off_is_final_witness :
  payments_of "loan-1"
    (run SQLite [(RecordPayment "loan-1" (Scenario.pay 100 "EMI"), Scenario.env4)]
       (Scenario.overpaid SQLite))
  = payments_of "loan-1" (Scenario.overpaid SQLite).
Proof.
  apply (paid_off_is_final SQLite
           [(RecordPayment "loan-1" (Scenario.pay 100 "EMI"), Scenario.env4)]
           (Scenario.overpaid SQLite) "loan-1"
           (mkLoan "loan-1" "cust-1" 1000 1200 10 2 50 PAID_OFF 1));
    reflexivity.
Defined.

(** ** The order of the ledger *)

Lemma insert_by_date_perm (p : payment_row) (l : list payment_row) :
  Permutation (insert_by_date p l) (p :: l).
Proof.
  induction l as [| q l IH]; simpl; [reflexivity |].
  destruct (payment_date p <? payment_date q)%Z; [reflexivity |].
  rewrite IH. apply perm_swap.
Qed.

Lemma fold_insert_perm (l acc : list payment_row) :
  Permutation (fold_left (fun a p => insert_by_date p a) l acc) (acc ++ l).
Proof.
  revert acc. induction l as [| p l IH]; intros acc; simpl.
  - rewrite app_nil_r. reflexivity.
  - rewrite IH, insert_by_date_perm. apply Permutation_middle.
Qed.

Lemma order_by_date_perm (l : list payment_row) :
  Permutation (order_by_date l) l.
Proof. apply (fold_insert_perm l []). Qed.

Lemma insert_by_date_sorted (p : payment_row) (l : list payment_row) :
  StronglySorted date_le l -> StronglySorted date_le (insert_by_date p l).
Proof.
  induction l as [| q l IH]; simpl; intros Hs.
  - constructor; constructor.
  - apply StronglySorted_inv in Hs. destruct Hs as [Hs Hq].
    destruct (payment_date p <? payment_date q)%Z eqn:E.
    + apply Z.ltb_lt in E. constructor; [constructor; assumption |].
      constructor; [unfold date_le; lia |].
      eapply Forall_impl; [| exact Hq]. unfold date_le. intros r Hr. lia.
    + apply Z.ltb_ge in E. constructor; [apply IH, Hs |].
      rewrite (insert_by_date_perm p l). constructor; assumption.
Qed.

Lemma order_by_date_sorted (l : list payment_row) :
  StronglySorted date_le (order_by_date l).
Proof.
  unfold order_by_date.
  assert (H : forall acc, StronglySorted date_le acc ->
                StronglySorted date_le
                  (fold_left (fun a p => insert_by_date p a) l acc)).
  { induction l as [| p l IH]; intros acc Hacc; simpl; [exact Hacc |].
    apply IH, insert_by_date_sorted, Hacc. }
  apply H. constructor.
Qed.

(** A row dated no earlier than the others goes last. *)
Lemma insert_by_date_last (p : payment_row) (l : list payment_row) :
  Forall (fun q => date_le q p) l -> insert_by_date p l = (l ++ [p])%list.
Proof.
  induction l as [| q l IH]; simpl; intros H; [reflexivity |].
  inversion H as [| ? ? Hq Hl]; subst.
  assert (E : (payment_date p <? payment_date q)%Z = false)
    by (apply Z.ltb_ge; exact Hq).
  rewrite E, (IH Hl). reflexivity.
Qed.

Lemma order_by_date_snoc (l : list payment_row) (p : payment_row) :
  order_by_date (l ++ [p]) = insert_by_date p (order_by_date l).
Proof. unfold order_by_date. rewrite fold_left_app. reflexivity. Qed.

Lemma sorted_snoc_inv (l : list payment_row) (p : payment_row) :
  StronglySorted date_le (l ++ [p]) ->
  StronglySorted date_le l /\ Forall (fun q => date_le q p) l.
Proof.
  induction l as [| q l IH]; simpl; intros H; [split; constructor |].
  apply StronglySorted_inv in H. destruct H as [Hs Hq].
  destruct (IH Hs) as [Hl Hp]. apply Forall_app in Hq. destruct Hq as [Hq Hqp].
  split; [constructor; assumption |].
  constructor; [inversion Hqp; assumption | exact Hp].
Qed.

(** Rows already in date order are left in their order. *)
Lemma order_by_date_sorted_id (l : list payment_row) :
  StronglySorted date_le l -> order_by_date l = l.
Proof.
  induction l as [| p l IH] using rev_ind; intros H; [reflexivity |].
  destruct (sorted_snoc_inv l p H) as [Hl Hp].
  rewrite order_by_date_snoc, (IH Hl). apply insert_by_date_last, Hp.
Qed.

Lemma strictly_sorted_sorted (l : list payment_row) :
  StronglySorted date_lt l -> StronglySorted date_le l.
Proof.
  induction 1 as [| p l Hs IH Hp]; constructor; [exact IH |].
  eapply Forall_impl; [| exact Hp]. unfold date_lt, date_le. intros q Hq. lia.
Qed.

Lemma served_ledger (b : backend) (db : database) (id : string)
  (loan : loan_row) (e : env) :
  find_loan id db = Some loan ->
  fault e SelectLoan = None ->
  fault e SelectTransactions = None ->
  exists body : ledger,
    get_ledger b id e db = (db, Success 200 body)
    /\ transactions body = map as_transaction (order_by_date (payments_of id db))
    /\ amount_paid body = sum_amounts (order_by_date (payments_of id db))
    /\ lg_total_amount body = originalTotalAmount loan
    /\ lg_monthly_emi body = monthly_emi loan
    /\ balance_amount body = originalTotalAmount loan - amount_paid body
    /\ lg_emis_left body
       = (if 0 <? monthly_emi loan
          then JS.Math_ceil (JS.Math_max 0 (balance_amount body) / monthly_emi loan)
          else 0)
    /\ lg_status body = status loan
    /\ lg_loan_id body = loan_id loan.
Proof.
  intros Hfind Hsel Htx.
  destruct b; unfold get_ledger, Sqlite.get_ledger, Pg.get_ledger; cbv zeta;
    rewrite Hsel, Hfind, Htx; eexists; (split; [reflexivity |]);
    cbn [amount_paid lg_total_amount balance_amount lg_emis_left lg_status
         transactions lg_monthly_emi lg_loan_id];
    unfold JS.parseFloat, JS.gt, loan_id_of;
    fold (sum_transactions
            (map as_transaction (order_by_date (payments_of id db))));
    rewrite sum_transactions_of_rows; repeat split; reflexivity.
Qed.

(** X10. The transactions of a ledger are the payments recorded for the
    loan, each once, in ascending order of payment_date; when the payments
    were recorded at strictly increasing dates, that is the order in which
    they were recorded. *)
Theorem ledger_lists_payments_by_date (b : backend) (db : database) (id : string)
  (loan : loan_row) (e : env) :
  find_loan id db = Some loan ->
  fault e SelectLoan = None ->
  fault e SelectTransactions = None ->
  exists (body : ledger) (rows : list payment_row),
    get_ledger b id e db = (db, Success 200 body)
    /\ transactions body = map as_transaction rows
    /\ Permutation rows (payments_of id db)
    /\ StronglySorted date_le rows
    /\ (StronglySorted date_lt (payments_of id db) -> rows = payments_of id db).
Proof.
  intros Hfind Hsel Htx.
  destruct (served_ledger b db id loan e Hfind Hsel Htx) as (body & Hrun & Ht & _).
  exists body, (order_by_date (payments_of id db)).
  split; [exact Hrun |]. split; [exact Ht |].
  split; [apply order_by_date_perm |].
  split; [apply order_by_date_sorted |].
  intros Hs. apply order_by_date_sorted_id, strictly_sorted_sorted, Hs.
Qed.

Lemma ledger_lists_payments_by_date_witness :
  exists (body : ledger) (rows : list payment_row),
    get_ledger SQLite "loan-1" Scenario.env4 (Scenario.overpaid SQLite)
    = (Scenario.overpaid SQLite, Success 200 body)
    /\ transactions body = map as_transaction rows
    /\ Permutation rows (payments_of "loan-1" (Scenario.overpaid SQLite))
    /\ StronglySorted date_le rows.
Proof.
  destruct (ledger_lists_payments_by_date SQLite (Scenario.overpaid SQLite) "loan-1"
              (mkLoan "loan-1" "cust-1" 1000 1200 10 2 50 PAID_OFF 1) Scenario.env4)
    as (body & rows & H1 & H2 & H3 & H4 & _); try reflexivity.
  exists body, rows. repeat split; assumption.
Defined.

(** ** Requests in sequence *)

Lemma served_payment_succeeds (b : backend) (db : database) (id : string)
  (loan : loan_row) (a : number) (t : string) (e : env) :
  find_loan id db = Some loan ->
  status loan = ACTIVE ->
  (0 <? a) = true ->
  t = "EMI"%string \/ t = "LUMP_SUM"%string ->
  (forall s, fault e s = None) ->
  existsb (fun p => String.eqb (payment_id p) (uuid e)) (Payments db) = false ->
  record_payment b id (mkPaymentRequest (Some a) (Some t)) e db
  = (settled db id (status_after (balance_after db loan a)) (new_payment id a t e),
     Success 200
       (mkPaymentRecorded (uuid e) id
          ("Payment recorded successfully. Loan status: "
           ++ status_text (status_after (balance_after db loan a)))%string
          (if balance_after db loan a <=? 0 then 0 else balance_after db loan a)
          (if 0 <? monthly_emi loan
           then JS.Math_ceil
                  ((if balance_after db loan a <=? 0 then 0
                    else balance_after db loan a) / monthly_emi loan)
           else 0))).
Proof.
  intros Hfind Hact Ha Ht Hnf Hfresh.
  destruct (record_payment_effect b id (mkPaymentRequest (Some a) (Some t)) e db)
    as [[Hf _] | (loan' & a' & t' & Hreq & _ & _ & Hfind' & _ & _ & Hrun)].
  - exfalso. revert Hf.
    destruct (positive_amount_accepted a t Ha Ht) as [Hmiss Hle].
    destruct b; unfold record_payment, Sqlite.record_payment, Pg.record_payment;
      rewrite Hmiss, Hle; cbv zeta; cbn [cur exec_begin idle saved];
      rewrite ?Hnf, Hfind, Hact; unfold on_cur, insert_payment, update_status;
      rewrite !Hnf; cbn [cur saved payment_id]; rewrite Hfresh; discriminate.
  - inversion Hreq; subst a' t'.
    assert (loan' = loan) as -> by congruence. exact Hrun.
Qed.

Lemma sum_amounts_snoc (l : list payment_row) (p : payment_row) :
  sum_amounts (l ++ [p]) = sum_amounts l + amount p.
Proof. unfold sum_amounts. rewrite fold_left_app. reflexivity. Qed.

(** X11. A recorded payment shows in the ledger: when a payment of amount a
    is accepted on an ACTIVE loan at a date after the loan's earlier
    payments, the ledger read after it lists the earlier transactions
    followed by the new one, reports amount_paid increased by a, and the
    same total_amount. *)
Theorem payment_shows_in_ledger (b : backend) (db : database) (id : string)
  (loan : loan_row) (a : number) (t : string) (e e1 e2 : env) :
  find_loan id db = Some loan ->
  status loan = ACTIVE ->
  (0 <? a) = true ->
  t = "EMI"%string \/ t = "LUMP_SUM"%string ->
  (forall s, fault e s = None) ->
  existsb (fun p => String.eqb (payment_id p) (uuid e)) (Payments db) = false ->
  Forall (fun q => (payment_date q < now e)%Z) (payments_of id db) ->
  fault e1 SelectLoan = None -> fault e1 SelectTransactions = None ->
  fault e2 SelectLoan = None -> fault e2 SelectTransactions = None ->
  let db' := fst (record_payment b id (mkPaymentRequest (Some a) (Some t)) e db) in
  exists before after : ledger,
    get_ledger b id e1 db = (db, Success 200 before)
    /\ get_ledger b id e2 db' = (db', Success 200 after)
    /\ transactions after
       = (transactions before ++ [mkTransaction (uuid e) (now e) a t])%list
    /\ amount_paid after = amount_paid before + a
    /\ lg_total_amount after = lg_total_amount before.
Proof.
  intros Hfind Hact Ha Ht Hnf Hfresh Hdates H1 H1' H2 H2' db'.
  pose proof (find_loan_id id db loan Hfind) as Hid.
  unfold db'.
  rewrite (served_payment_succeeds b db id loan a t e Hfind Hact Ha Ht Hnf Hfresh).
  cbn [fst]. set (s := status_after (balance_after db loan a)).
  assert (Hfind' : find_loan id (settled db id s (new_payment id a t e))
                   = Some (set_status s loan)).
  { unfold find_loan, settled; cbn [Loans]. rewrite find_loan_relabel.
    unfold find_loan in Hfind. rewrite Hfind. cbn [option_map].
    rewrite Hid, String.eqb_refl. reflexivity. }
  destruct (served_ledger b db id loan e1 Hfind H1 H1')
    as (before & Hb & Hbt & Hbp & Hbtot & _).
  destruct (served_ledger b _ id _ e2 Hfind' H2 H2')
    as (after & Haf & Hat & Hap & Hatot & _).
  exists before, after. split; [exact Hb |]. split; [exact Haf |].
  assert (Hord : order_by_date (payments_of id (settled db id s (new_payment id a t e)))
                 = (order_by_date (payments_of id db) ++ [new_payment id a t e])%list).
  { rewrite payments_of_settled. cbn [new_payment pay_loan_id].
    rewrite String.eqb_refl, order_by_date_snoc.
    apply insert_by_date_last.
    rewrite (order_by_date_perm (payments_of id db)).
    eapply Forall_impl; [| exact Hdates].
    intros q Hq. unfold date_le; cbn in Hq |- *. lia. }
  rewrite Hat, Hap, Hbt, Hbp, Hatot, Hbtot, Hord, map_app, sum_amounts_snoc.
  repeat split; reflexivity.
Qed.

Lemma payment_shows_in_ledger_witness :
  exists before after : ledger,
    get_ledger SQLite "loan-1" Scenario.env4 (Scenario.part_paid SQLite)
    = (Scenario.part_paid SQLite, Success 200 before)
    /\ get_ledger SQLite "loan-1" Scenario.env4 (Scenario.overpaid SQLite)
       = (Scenario.overpaid SQLite, Success 200 after)
    /\ transactions after
       = (transactions before ++ [mkTransaction "pay-2" 3 600 "LUMP_SUM"])%list
    /\ amount_paid after = amount_paid before + 600.
Proof.
  destruct (payment_shows_in_ledger SQLite (Scenario.part_paid SQLite) "loan-1"
              (mkLoan "loan-1" "cust-1" 1000 1200 10 2 50 ACTIVE 1)
              600 "LUMP_SUM" Scenario.env3 Scenario.env4 Scenario.env4)
    as (before & after & H1 & H2 & H3 & H4 & _); try reflexivity.
  - right; reflexivity.
  - cbv. repeat constructor.
  - exists before, after. repeat split; assumption.
Defined.

Lemma no_payments_of_new_key (db : database) (k : string) :
  payments_reference_loans db ->
  existsb (fun l => String.eqb (loan_id l) k) (Loans db) = false ->
  payments_of k db = [].
Proof.
  intros Href Hfresh.
  destruct (payments_of k db) as [| p l] eqn:E; [reflexivity | exfalso].
  assert (Hin : In p (payments_of k db)) by (rewrite E; left; reflexivity).
  unfold payments_of in Hin. apply filter_In in Hin. destruct Hin as [Hin Hid].
  apply String.eqb_eq in Hid. apply (Href p Hin).
  rewrite Hid. apply existsb_false_find, Hfresh.
Qed.

(** X12. A loan just created reads back clean: in a state of the service,
    after a loan request answered 201, the ledger of the returned loan_id is
    served for that loan, with no transactions, amount_paid 0, a
    balance_amount that is its total_amount less 0, and status ACTIVE. *)
Theorem new_loan_has_empty_ledger (b : backend) (db db' : database)
  (req : loan_request) (e e' : env) (created : loan_created) :
  reachable b db ->
  create_loan b req e db = (db', Success 201 created) ->
  fault e' SelectLoan = None -> fault e' SelectTransactions = None ->
  exists body : ledger,
    get_ledger b (lc_loan_id created) e' db' = (db', Success 200 body)
    /\ lg_loan_id body = lc_loan_id created
    /\ transactions body = []
    /\ amount_paid body = 0
    /\ balance_amount body = lg_total_amount body - 0
    /\ lg_status body = ACTIVE.
Proof.
  intros Hreach Hrun Hsel Htx.
  destruct (reachable_well_formed b db Hreach) as (_ & _ & _ & Href & _).
  destruct (create_loan_effect b req e db) as (cs & ls & Hdb & _ & Hls).
  rewrite Hrun in Hdb, Hls. cbn [fst snd] in Hdb, Hls.
  destruct Hls as [[_ Hf] | (-> & Hbody & _ & _ & Hfresh & _)];
    [discriminate Hf |].
  inversion Hbody; subst created; clear Hbody. cbn [lc_loan_id].
  assert (Hfind : find_loan (uuid e) db' = Some (new_loan req e)).
  { rewrite Hdb. unfold find_loan; cbn [Loans].
    rewrite (find_app_none _ _ _ (existsb_false_find _ _ Hfresh)).
    cbn. rewrite String.eqb_refl. reflexivity. }
  assert (Hnone : payments_of (uuid e) db' = []).
  { rewrite Hdb. change (payments_of (uuid e) db = []).
    apply no_payments_of_new_key; assumption. }
  destruct (served_ledger b db' (uuid e) (new_loan req e) e' Hfind Hsel Htx)
    as (body & Hled & Ht & Hp & Htot & _ & Hbal & _ & Hst & Hid).
  exists body. rewrite Hnone in Ht, Hp. cbn in Ht, Hp.
  split; [exact Hled |]. split; [exact Hid |]. split; [exact Ht |].
  split; [exact Hp |].
  split; [rewrite Hbal, Hp, Htot; reflexivity | exact Hst].
Qed.

Lemma new_loan_has_empty_ledger_witness :
  exists body : ledger,
    get_ledger PostgreSQL "loan-1" Scenario.env4 (Scenario.opened PostgreSQL)
    = (Scenario.opened PostgreSQL, Success 200 body)
    /\ transactions body = []
    /\ amount_paid body = 0.
Proof.
  destruct (new_loan_has_empty_ledger PostgreSQL empty_db
              (Scenario.opened PostgreSQL) Scenario.lend Scenario.env1
              Scenario.env4 (mkLoanCreated "loan-1" "cust-1" 1200 50 200))
    as (body & H1 & _ & H2 & H3 & _); try reflexivity.
  - exists []. reflexivity.
  - exists body. repeat split; assumption.
Defined.

(** ** What a payment answers *)

(** X13. A payment answered 200 never reports a negative
    remaining_balance, and carries the new identifier and the loan's; when
    it leaves the loan PAID_OFF it reports remaining_balance 0 and
    emis_left 0. *)
Theorem payment_answer_bounds (b : backend) (id : string) (req : payment_request)
  (e : env) (db : database) (body : payment_recorded) :
  snd (record_payment b id req e db) = Success 200 body ->
  (remaining_balance body <? 0) = false
  /\ pr_payment_id body = uuid e
  /\ pr_loan_id body = id
  /\ (option_map status (find_loan id (fst (record_payment b id req e db)))
      = Some PAID_OFF ->
      remaining_balance body = 0 /\ pr_emis_left body = 0).
Proof.
  intros Hok.
  destruct (record_payment_effect b id req e db)
    as [[Hf _] | (loan & a & t & _ & _ & _ & Hfind & _ & _ & Hrun)].
  - rewrite Hok in Hf. discriminate Hf.
  - rewrite Hrun in Hok |- *. cbn [fst snd] in Hok |- *.
    inversion Hok; subst body; clear Hok.
    cbn [remaining_balance pr_payment_id pr_loan_id pr_emis_left].
    set (bal := balance_after db loan a).
    split; [| split; [reflexivity | split; [reflexivity |]]].
    + destruct (bal <=? 0) eqn:E; [reflexivity |].
      destruct (bal <? 0) eqn:L; [| reflexivity].
      rewrite (lt_zero_le bal L) in E. discriminate E.
    + unfold find_loan, settled; cbn [Loans]. rewrite find_loan_relabel.
      unfold find_loan in Hfind. rewrite Hfind. cbn [option_map].
      rewrite (find_loan_id id db loan Hfind), String.eqb_refl.
      cbn [set_status status]. unfold status_after.
      destruct (bal <=? 0); [intros _ | discriminate].
      split; [reflexivity |].
      destruct (0 <? monthly_emi loan) eqn:Hemi; [| reflexivity].
      rewrite (zero_over_positive _ Hemi). reflexivity.
Qed.

Lemma payment_answer_bounds_witness :
  exists body : payment_recorded,
    snd (record_payment PostgreSQL "loan-1" (Scenario.pay 600 "LUMP_SUM")
           Scenario.env3 (Scenario.part_paid PostgreSQL)) = Success 200 body
    /\ remaining_balance body = 0 /\ pr_emis_left body = 0.
Proof.
  eexists. split; [reflexivity |].
  apply (payment_answer_bounds PostgreSQL "loan-1" (Scenario.pay 600 "LUMP_SUM")
           Scenario.env3 (Scenario.part_paid PostgreSQL));
    reflexivity.
Defined.

(** ** What a refused loan request leaves *)

(** X14. A loan request that is not answered 201 adds no loan and no
    payment; the one thing it may leave behind is the placeholder row of a
    customer that was unknown, provisioned before the loan insert failed. *)
Theorem failed_loan_request (b : backend) (req : loan_request) (e : env)
  (db : database) :
  is_failure (snd (create_loan b req e db)) = true ->
  Loans (fst (create_loan b req e db)) = Loans db
  /\ Payments (fst (create_loan b req e db)) = Payments db
  /\ (Customers (fst (create_loan b req e db)) = Customers db
      \/ (Customers (fst (create_loan b req e db))
          = (Customers db ++ [placeholder (JS.str (req_customer_id req)) e])%list
          /\ find_customer (JS.str (req_customer_id req)) db = None)).
Proof.
  intros Hf.
  destruct (create_loan_effect b req e db) as (cs & ls & Hdb & Hcs & Hls).
  destruct Hls as [[-> _] | (_ & Hok & _)]; [| rewrite Hok in Hf; discriminate Hf].
  rewrite Hdb; cbn [Customers Loans Payments]. rewrite app_nil_r.
  split; [reflexivity |]. split; [reflexivity |].
  destruct Hcs as [-> | [-> Hnone]];
    [left; apply app_nil_r | right; split; [reflexivity | exact Hnone]].
Qed.

Lemma failed_loan_request_witness :
  Loans (fst (create_loan PostgreSQL Scenario.lend Scenario.loan_insert_fails
                empty_db)) = []
  /\ Customers (fst (create_loan PostgreSQL Scenario.lend Scenario.loan_insert_fails
                       empty_db))
     = [mkCustomer "cust-1" "Customer cust-1" 1].
Proof.
  destruct (failed_loan_request PostgreSQL Scenario.lend Scenario.loan_insert_fails
              empty_db) as (Hl & _ & _); [reflexivity |].
  split; [exact Hl | reflexivity].
Defined.

(** ** The account overview *)

Lemma overview_entries_agree (e : env) (db : database) (loans : list loan_row) :
  Sqlite.overview_entries e db loans = Pg.overview_entries e db loans.
Proof.
  induction loans as [| l loans IH]; simpl; [reflexivity |].
  rewrite IH. reflexivity.
Qed.

Lemma overview_entries_served (e : env) (db : database) (loans : list loan_row) :
  (forall l, In l loans -> fault e (SelectLoanPayments (loan_id l)) = None) ->
  Sqlite.overview_entries e db loans
  = Done (map (fun l => Sqlite.overview_entry l db) loans).
Proof.
  induction loans as [| l loans IH]; simpl; intros H; [reflexivity |].
  rewrite (H l (or_introl eq_refl)), IH; [reflexivity |].
  intros r Hr. apply H. right. exact Hr.
Qed.

Lemma overview_entries_failed (e : env) (db : database) (loans : list loan_row)
  (l : loan_row) (err : string) :
  In l loans -> fault e (SelectLoanPayments (loan_id l)) = Some err ->
  exists err', Sqlite.overview_entries e db loans = Err err'.
Proof.
  induction loans as [| r loans IH]; simpl; intros Hin Hf; [destruct Hin |].
  destruct (fault e (SelectLoanPayments (loan_id r))) as [m |] eqn:E;
    [exists m; reflexivity |].
  destruct Hin as [-> | Hin]; [congruence |].
  destruct (IH Hin Hf) as (err' & ->). exists err'. reflexivity.
Qed.

(** X17. With the loans query served, the overview of a customer is
    answered 404 exactly when no Loans row carries the customer_id (whether
    or not the customer is in Customers); otherwise, when every per-loan
    read is served, it is a 200 whose total_loans is the number of the
    customer's loans and whose entries are those loans, one each (in the
    SQLite variant in the order of Loans); and when one per-loan read fails
    the answer is a 500. *)
Theorem overview_outcomes (b : backend) (cid : string) (e : env) (db : database) :
  fault e SelectCustomerLoans = None ->
  (snd (get_overview b cid e db) = NoLoansFound <-> loans_of cid db = [])
  /\ (loans_of cid db <> [] ->
      (forall l, In l (loans_of cid db) ->
                 fault e (SelectLoanPayments (loan_id l)) = None) ->
      exists body : overview,
        get_overview b cid e db = (db, Success 200 body)
        /\ ov_customer_id body = cid
        /\ total_loans body = List.length (loans_of cid db)
        /\ Permutation (loans body)
             (map (fun l => overview_entry b l db) (loans_of cid db))
        /\ (b = SQLite ->
            loans body = map (fun l => overview_entry b l db) (loans_of cid db)))
  /\ (forall (l : loan_row) (err : string),
         In l (loans_of cid db) ->
         fault e (SelectLoanPayments (loan_id l)) = Some err ->
         exists message error,
           get_overview b cid e db = (db, Failure 500 message (Some error))).
Proof.
  intros Hsel. split; [| split].
  - destruct b; unfold get_overview, Sqlite.get_overview, Pg.get_overview;
      cbv zeta; rewrite Hsel;
      (destruct (loans_of cid db) as [| l ls] eqn:E; [split; reflexivity |]);
      rewrite <- ?overview_entries_agree;
      (split; [| discriminate]);
      destruct (Sqlite.overview_entries e db (l :: ls)); cbn [snd]; discriminate.
  - intros Hne Hserved.
    pose proof (overview_entries_served e db (loans_of cid db) Hserved) as Hs.
    destruct b; unfold get_overview, Sqlite.get_overview, Pg.get_overview;
      cbv zeta; rewrite Hsel;
      (destruct (loans_of cid db) as [| l ls] eqn:E; [congruence |]);
      rewrite <- ?overview_entries_agree; rewrite Hs;
      eexists; (split; [reflexivity |]);
      cbn [ov_customer_id total_loans loans];
      rewrite ?length_map; repeat split; reflexivity.
  - intros l err Hin Hf.
    destruct (overview_entries_failed e db (loans_of cid db) l err Hin Hf)
      as (err' & He).
    destruct b; unfold get_overview, Sqlite.get_overview, Pg.get_overview;
      cbv zeta; rewrite Hsel;
      (destruct (loans_of cid db) as [| r ls] eqn:E; [destruct Hin |]);
      rewrite <- ?overview_entries_agree; rewrite He;
      eexists; eexists; reflexivity.
Qed.

Lemma overview_outcomes_witness :
  exists body : overview,
    get_overview SQLite "cust-1" Scenario.env4 (Scenario.part_paid SQLite)
    = (Scenario.part_paid SQLite, Success 200 body)
    /\ total_loans body = 1%nat
    /\ map ov_loan_id (loans body) = ["loan-1"%string].
Proof.
  destruct (overview_outcomes SQLite "cust-1" Scenario.env4
              (Scenario.part_paid SQLite) eq_refl) as (_ & Hok & _).
  destruct Hok as (body & Hrun & _ & Hn & _ & Hlist).
  - discriminate.
  - intros l _. reflexivity.
  - exists body. split; [exact Hrun |]. split; [exact Hn |].
    rewrite (Hlist eq_refl). reflexivity.
Defined.

(** X18. The overview and the ledger agree on a loan: in a state of the
    service, for a loan whose payments were recorded at strictly increasing
    dates, the overview entry of the loan carries the principal,
    total_amount, EMI, amount_paid, emis_left and status that the ledger of
    the loan reports. *)
Theorem overview_agrees_with_ledger (b : backend) (db : database)
  (loan : loan_row) (e : env) :
  reachable b db ->
  In loan (Loans db) ->
  StronglySorted date_lt (payments_of (loan_id loan) db) ->
  fault e SelectLoan = None ->
  fault e SelectTransactions = None ->
  exists body : ledger,
    get_ledger b (loan_id loan) e db = (db, Success 200 body)
    /\ ov_loan_id (overview_entry b loan db) = lg_loan_id body
    /\ ov_principal (overview_entry b loan db) = lg_principal body
    /\ ov_total_amount (overview_entry b loan db) = lg_total_amount body
    /\ emi_amount (overview_entry b loan db) = lg_monthly_emi body
    /\ ov_amount_paid (overview_entry b loan db) = amount_paid body
    /\ ov_emis_left (overview_entry b loan db) = lg_emis_left body
    /\ ov_status (overview_entry b loan db) = lg_status body.
Proof.
  intros Hreach Hin Hsorted Hsel Htx.
  pose proof (in_loans_find db loan (reachable_keys_unique b db Hreach) Hin)
    as Hfind.
  pose proof (order_by_date_sorted_id _ (strictly_sorted_sorted _ Hsorted)) as Hord.
  destruct b; unfold get_ledger, Sqlite.get_ledger, Pg.get_ledger; cbv zeta;
    rewrite Hsel, Hfind, Htx; eexists; (split; [reflexivity |]);
    cbn [amount_paid lg_total_amount lg_emis_left lg_status lg_monthly_emi
         lg_loan_id lg_principal overview_entry];
    unfold Sqlite.overview_entry, Pg.overview_entry, Pg.reduce_amounts,
      JS.parseFloat, JS.gt, loan_id_of;
    cbn [ov_loan_id ov_principal ov_total_amount emi_amount ov_amount_paid
         ov_emis_left ov_status];
    fold (sum_transactions
            (map as_transaction
               (order_by_date (payments_of (loan_id loan) db))));
    rewrite sum_transactions_of_rows, Hord; repeat split; reflexivity.
Qed.

Lemma overview_agrees_with_ledger_witness :
  exists body : ledger,
    get_ledger SQLite "loan-1" Scenario.env4 (Scenario.overpaid SQLite)
    = (Scenario.overpaid SQLite, Success 200 body)
    /\ amount_paid body = 1300
    /\ lg_emis_left body = 0.
Proof.
  destruct (overview_agrees_with_ledger SQLite (Scenario.overpaid SQLite)
              (mkLoan "loan-1" "cust-1" 1000 1200 10 2 50 PAID_OFF 1)
              Scenario.env4)
    as (body & Hrun & _ & _ & _ & _ & Hpaid & Hemi & _).
  - exists [(CreateLoan Scenario.lend, Scenario.env1);
            (RecordPayment "loan-1" (Scenario.pay 700 "EMI"), Scenario.env2);
            (RecordPayment "loan-1" (Scenario.pay 600 "LUMP_SUM"), Scenario.env3)].
    reflexivity.
  - left; reflexivity.
  - cbv. repeat constructor.
  - reflexivity.
  - reflexivity.
  - exists body. split; [exact Hrun |].
    split; [rewrite <- Hpaid | rewrite <- Hemi]; reflexivity.
Defined.

(** ** Unknown loans *)

(** X20. "Loan not found." (404) is the answer for exactly the loan ids
    that are not in Loans: with the loan lookup served, the ledger answers
    it if and only if no Loans row has the id, and so does a payment with a
    valid body; in both cases the store is left as it was. *)
Theorem not_found_iff_absent (b : backend) (id : string) (e : env) (db : database)
  (a : number) (t : string) :
  fault e Begin = None ->
  fault e SelectLoan = None ->
  (0 <? a) = true ->
  t = "EMI"%string \/ t = "LUMP_SUM"%string ->
  (snd (get_ledger b id e db) = LoanNotFound <-> find_loan id db = None)
  /\ (snd (record_payment b id (mkPaymentRequest (Some a) (Some t)) e db)
      = LoanNotFound <-> find_loan id db = None)
  /\ (find_loan id db = None ->
      fst (record_payment b id (mkPaymentRequest (Some a) (Some t)) e db) = db).
Proof.
  intros Hbegin Hsel Ha Ht.
  destruct (positive_amount_accepted a t Ha Ht) as [Hmiss Hle].
  split; [| split].
  - destruct b; unfold get_ledger, Sqlite.get_ledger, Pg.get_ledger; cbv zeta;
      rewrite Hsel; destruct (find_loan id db) as [loan |];
      try (split; reflexivity);
      (split; [| discriminate]);
      destruct (fault e SelectTransactions); cbn [snd]; discriminate.
  - destruct b; unfold record_payment, Sqlite.record_payment, Pg.record_payment;
      rewrite Hmiss, Hle; cbv zeta; cbn [cur exec_begin idle saved];
      rewrite ?Hbegin, Hsel; destruct (find_loan id db) as [loan |];
      try (split; reflexivity);
      (split; [| discriminate]);
      unfold on_cur, insert_payment, update_status; cbn [cur saved payment_id];
      repeat (case_store; cbn [fst snd cur saved]); discriminate.
  - intros Hnone. apply failed_payment_unchanged.
    destruct b; unfold record_payment, Sqlite.record_payment, Pg.record_payment;
      rewrite Hmiss, Hle; cbv zeta; cbn [cur exec_begin idle saved];
      rewrite ?Hbegin, Hsel, Hnone; reflexivity.
Qed.

Lemma not_found_iff_absent_witness :
  snd (get_ledger SQLite "loan-9" Scenario.env4 (Scenario.part_paid SQLite))
  = LoanNotFound
  /\ record_payment PostgreSQL "loan-9" (Scenario.pay 100 "EMI") Scenario.env4
       (Scenario.part_paid PostgreSQL)
     = (Scenario.part_paid PostgreSQL, LoanNotFound).
Proof.
  split.
  - apply (not_found_iff_absent SQLite "loan-9" Scenario.env4
             (Scenario.part_paid SQLite) 100 "EMI");
      try reflexivity. left; reflexivity.
  - reflexivity.
Defined.

(** ** Bodies that carry strings *)

(** On a body whose numeric fields are numbers (or absent) the handler of
    this section is the SQLite handler above. *)
Lemma untyped_create_loan_of_numbers (req : loan_request) (e : env)
  (db : database) :
  Untyped.create_loan (Untyped.of_request req) e db
  = Some (fst (Sqlite.create_loan req e db),
          Untyped.of_response (snd (Sqlite.create_loan req e db))).
Proof.
  destruct req as [cid [P |] [Y |] [R |]];
    unfold Untyped.create_loan, Sqlite.create_loan, missing_loan_parameters,
      invalid_loan_parameters, Untyped.of_request, JS.le, JS.lt,
      Untyped.le, Untyped.lt;
    cbn [req_customer_id req_loan_amount req_loan_period_years
         req_interest_rate_yearly Untyped.body_customer_id
         Untyped.body_loan_amount Untyped.body_loan_period_years
         Untyped.body_interest_rate_yearly Untyped.of_field Untyped.not
         Untyped.ToNumber JS.not_num JS.num option_map];
    rewrite ?orb_true_r; cbn [orb]; try reflexivity.
  destruct (JS.not_str cid || (is_zero P || is_nan P) || (is_zero Y || is_nan Y)
            || (is_zero R || is_nan R)); [reflexivity |].
  destruct (P <=? 0); [reflexivity |].
  destruct (Y <=? 0); [reflexivity |].
  destruct (R <? 0); [reflexivity |].
  cbn [orb]. cbv zeta.
  unfold Untyped.calculateLoanDetails, calculateLoanDetails, Untyped.mul,
    Untyped.div, Untyped.add, Untyped.bind_numeric, insert_loan, insert_customer.
  cbn [Untyped.ToNumber Untyped.totalAmount Untyped.monthlyEmi Untyped.interest
       totalAmount monthlyEmi interest loan_id cust_customer_id].
  repeat (case_store; cbn [fst snd Untyped.of_response]); reflexivity.
Qed.

(** C8 (the loan on which the two totals differ).  The body that sends
    loan_amount as the string 1000, with period 2 and rate 10, passes both
    guards; [principal + interest] concatenates, so the 201 answer carries
    total_amount_payable "1000200" and the Loans row stores principal 1000
    and total_amount 1000200, while the total that payment recording
    recomputes from the row is 1200: a payment of 1200 closes the loan. *)
Theorem string_amount_total_diverges :
  exists row : loan_row,
    Untyped.create_loan Untyped.string_amount Scenario.env1 empty_db
    = Some (mkDb [mkCustomer "cust-1" "Customer cust-1" 1] [row] [],
            Success 201
              (Untyped.mkLoanAnswer "loan-1" "cust-1" (Untyped.JString "1000200")
                 41675 200))
    /\ principal_amount row = 1000
    /\ total_amount row = 1000200
    /\ originalTotalAmount row = 1200
    /\ originalTotalAmount row <> total_amount row
    /\ exists body : payment_recorded,
         record_payment SQLite "loan-1" (Scenario.pay 1200 "EMI") Scenario.env2
           (mkDb [mkCustomer "cust-1" "Customer cust-1" 1] [row] [])
         = (mkDb [mkCustomer "cust-1" "Customer cust-1" 1]
              [set_status PAID_OFF row]
              [mkPayment "pay-1" "loan-1" 1200 "EMI" 2],
            Success 200 body)
         /\ remaining_balance body = 0.
Proof.
  eexists. split; [reflexivity |].
  cbn [principal_amount total_amount].
  split; [reflexivity |]. split; [reflexivity |]. split; [reflexivity |].
  split.
  - intros H. apply (f_equal (fun x => x <? 1000200)) in H.
    vm_compute in H. discriminate H.
  - eexists. split; reflexivity.
Qed.
